(** * Visa tracker server (server.js): applicant registry, settings registry,
      export/import bundler

    A shallow embedding of the Express handlers.  Request bodies, stored
    documents and responses are JSON values; JavaScript objects are finite
    maps from property names to values.  The two database files are
    represented by the JSON value their text denotes: [writeDB] stores
    [JSON.stringify data] and [readDB] returns [JSON.parse] of the text, and
    [JSON.parse] inverts [JSON.stringify] on every value that was itself
    produced by [JSON.parse], which is the case of every request body and
    every stored document; the numbers in them are taken to be finite and
    not the negative zero, the two cases where the text written differs from
    the text read.  The same holds for the backup file that the export sends
    and the import receives.  A file that is missing or whose text does not
    parse is [None].  Disk writes are taken to succeed.

    Functions of the JavaScript runtime whose result depends on text that
    the server does not produce ([JSON.parse] of an applicant's [Documents]
    string, number formatting, the [path] module) are fields of the class
    [Runtime]; nothing is assumed about them. *)

From Stdlib Require Import Floats Ascii.
From stdpp Require Import gmap strings list fin_maps pretty.

Local Open Scope string_scope.
Local Open Scope list_scope.
Local Open Scope nat_scope.
Set Warnings "-register-all".

(** ** JSON values *)

Inductive json :=
| JNull
| JBool (b : bool)
| JNum (x : float)
| JStr (s : string)
| JArr (l : list json)
| JObj (o : gmap string json).

(** The result of reading a property or a variable; [None] is [undefined]. *)
Abbreviation jsval := (option json).

(** ** Exceptions and the handler monad *)

Inductive exn := TypeError | SyntaxError | IOError.

Inductive outcome (A : Type) :=
| Ok (a : A)
| Throw (e : exn).
Arguments Ok {A} a.
Arguments Throw {A} e.

#[global] Instance outcome_ret : MRet outcome := λ A a, Ok a.
#[global] Instance outcome_bind : MBind outcome := λ A B k m,
  match m with Ok a => k a | Throw e => Throw e end.
#[global] Instance outcome_throw : MThrow exn outcome := λ A e, Throw e.

(** A computation over a mutable state [S]; the state reached when an
    exception is thrown is kept, as effects done before a [throw] are. *)
Definition io (S A : Type) : Type := S → outcome A * S.

#[global] Instance io_ret {S} : MRet (io S) := λ A a s, (Ok a, s).
#[global] Instance io_bind {S} : MBind (io S) := λ A B k m s,
  match m s with
  | (Ok a, s') => k a s'
  | (Throw e, s') => (Throw e, s')
  end.
#[global] Instance io_throw {S} : MThrow exn (io S) := λ A e s, (Throw e, s).

Definition lift {S A} (r : outcome A) : io S A := λ s, (r, s).

(** [try { m } catch (e) { handler e }] *)
Definition try_catch {S A} (m : io S A) (handler : exn → io S A) : io S A :=
  λ s, match m s with
       | (Throw e, s') => handler e s'
       | r => r
       end.

(** ** JavaScript operations the handlers use *)

(** Own enumerable properties, as copied by object spread [{...v}]:
    the properties of an object, the indexed elements of an array, the
    characters of a string, and nothing for the other values. *)
Definition own_props (v : json) : gmap string json :=
  match v with
  | JObj o => o
  | JArr l => list_to_map (imap (λ i e, (pretty i, e)) l)
  | JStr s =>
      list_to_map (imap (λ i c, (pretty i, JStr (String c EmptyString)))
                        (String.list_ascii_of_string s))
  | _ => ∅
  end.

(** [{...v}] where [v] may be [undefined]. *)
Definition spread (v : jsval) : gmap string json :=
  match v with Some v => own_props v | None => ∅ end.

(** [v.k] for a property name [k] other than [length] that no prototype
    defines ([id], [FullName], [Documents], [url], [name], [settings], ...):
    a [TypeError] on [null], the own property otherwise. *)
Definition prop (v : json) (k : string) : outcome jsval :=
  match v with
  | JNull => Throw TypeError
  | _ => Ok (own_props v !! k)
  end.

(** ToBoolean *)
Definition truthy (v : jsval) : bool :=
  match v with
  | None => false
  | Some JNull => false
  | Some (JBool b) => b
  | Some (JNum x) => negb (PrimFloat.eqb x 0 || PrimFloat.is_nan x)
  | Some (JStr s) => negb (String.eqb s EmptyString)
  | Some (JArr _) => true
  | Some (JObj _) => true
  end.

(** [a === b].  Arrays and objects compare by identity; the two operands of
    every comparison in the server are parsed from different texts, so they
    are never the same object. *)
Definition strict_eq (a b : jsval) : bool :=
  match a, b with
  | None, None => true
  | Some JNull, Some JNull => true
  | Some (JBool x), Some (JBool y) => Bool.eqb x y
  | Some (JNum x), Some (JNum y) => PrimFloat.eqb x y
  | Some (JStr x), Some (JStr y) => String.eqb x y
  | _, _ => false
  end.

(** SameValueZero, the comparison of [Array.prototype.includes]. *)
Definition same_value_zero (a b : jsval) : bool :=
  match a, b with
  | Some (JNum x), Some (JNum y) =>
      PrimFloat.eqb x y || (PrimFloat.is_nan x && PrimFloat.is_nan y)
  | _, _ => strict_eq a b
  end.

(** [a || d] with [d] a literal. *)
Definition or_else (a : jsval) (d : json) : json :=
  match a with
  | Some v => if truthy a then v else d
  | None => d
  end.

(** Calling an [Array.prototype] method on [v]. *)
Definition as_array (v : json) : outcome (list json) :=
  match v with
  | JArr l => Ok l
  | _ => Throw TypeError
  end.

(** [l.findIndex(p)]; [None] is the result [-1]. *)
Fixpoint findIndex (p : json → outcome bool) (l : list json) : outcome (option nat) :=
  match l with
  | [] => Ok None
  | a :: l' =>
      b ← p a;
      if b : bool then Ok (Some 0)
      else i ← findIndex p l'; Ok (option_map S i)
  end.

(** [l.filter(p)] *)
Fixpoint filter_js (p : json → outcome bool) (l : list json) : outcome (list json) :=
  match l with
  | [] => Ok []
  | a :: l' =>
      b ← p a;
      r ← filter_js p l';
      Ok (if b : bool then a :: r else r)
  end.

(** ** The document store and the rest of the server's world *)

Inductive db_file := SETTINGS_FILE | APPLICANTS_FILE.

Inductive log_line :=
| Warn (msg : string)
| Error (msg : string).

Record world := World {
  settings_json : option json;      (* data/settings.json *)
  applicants_json : option json;    (* data/applicants.json *)
  uploads : gset string;            (* paths of the files present on disk *)
  writes : list (db_file * json);   (* calls of fs.writeFile, oldest first *)
  console : list log_line           (* console.warn and console.error *)
}.

Definition content (f : db_file) (w : world) : option json :=
  match f with
  | SETTINGS_FILE => settings_json w
  | APPLICANTS_FILE => applicants_json w
  end.

Definition readDB (filePath : db_file) : io world json := λ w,
  match content filePath w with
  | Some data => (Ok data, w)
  | None => (Throw IOError, w)
  end.

Definition writeDB (filePath : db_file) (data : json) : io world () := λ w,
  (Ok (),
   World (match filePath with SETTINGS_FILE => Some data | _ => settings_json w end)
         (match filePath with APPLICANTS_FILE => Some data | _ => applicants_json w end)
         (uploads w)
         (writes w ++ [(filePath, data)])
         (console w)).

(** The world after [lines] were written to the console. *)
Definition add_log (lines : list log_line) (w : world) : world :=
  World (settings_json w) (applicants_json w) (uploads w) (writes w)
        (console w ++ lines).

Definition console_log (line : log_line) : io world () := λ w,
  (Ok (), add_log [line] w).

(** ** Responses and handlers *)

Inductive zip_entry :=
| Append (content : string) (name : string)   (* archive.append(text, {name}) *)
| File (filePath : string) (name : string).   (* archive.file(path, {name}) *)

Inductive response :=
| Json (status : nat) (body : json)       (* res.status(n).json(body) *)
| BackupFile (backupData : json)          (* visa-tracker-backup.json, the text
                                             JSON.stringify(backupData, null, 2) *)
| ZipFile (filename : string) (archive : list zip_entry).

Definition handler : Type := world → response * world.

Definition error (msg : string) : json := JObj {[ "error" := JStr msg ]}.

(** [async (req, res) => { try { body } catch (error) { onError } }];
    no catch block of the server throws. *)
Definition try_handler (body : io world response) (onError : handler) : handler :=
  λ w, match body w with
       | (Ok r, w') => (r, w')
       | (Throw _, w') => onError w'
       end.

(** [res.status(500).json({ error: msg })] *)
Definition fail500 (msg : string) : handler :=
  λ w, (Json 500 (error msg), w).

(** [console.error(line, error); res.status(500).json({ error: msg })] *)
Definition log_fail500 (line msg : string) : handler :=
  λ w, (Json 500 (error msg), add_log [Error line] w).

(** GET /api/settings *)
Definition get_settings : handler :=
  try_handler
    (settings ← readDB SETTINGS_FILE;
     mret (Json 200 settings))
    (fail500 "Failed to read settings.").


(** GET /api/applicants *)
Definition get_applicants : handler :=
  try_handler
    (applicants ← readDB APPLICANTS_FILE;
     mret (Json 200 applicants))
    (fail500 "Failed to read applicants.").

(** POST /api/applicants; [uuid] is the value of [crypto.randomUUID()]. *)
Definition post_applicants (uuid : string) (body : json) : handler :=
  try_handler
    (applicants ← readDB APPLICANTS_FILE;
     let newApplicant := JObj (own_props body ∪ {[ "id" := JStr uuid ]}) in
     l ← lift (as_array applicants);
     writeDB APPLICANTS_FILE (JArr (newApplicant :: l));;
     mret (Json 201 newApplicant))
    (fail500 "Failed to add applicant.").

(** [a => a.id === req.params.id] *)
Definition id_is (id : string) (a : json) : outcome bool :=
  v ← prop a "id"; mret (strict_eq v (Some (JStr id))).

(** PUT /api/applicants/:id *)
Definition put_applicant (id : string) (body : json) : handler :=
  try_handler
    (applicants ← readDB APPLICANTS_FILE;
     l ← lift (as_array applicants);
     index ← lift (findIndex (id_is id) l);
     match index with
     | None => mret (Json 404 (error "Applicant not found."))
     | Some i =>
         let updatedApplicant := JObj (own_props body ∪ spread (l !! i)) in
         writeDB APPLICANTS_FILE (JArr (<[i := updatedApplicant]> l));;
         mret (Json 200 updatedApplicant)
     end)
    (fail500 "Failed to update applicant.").

(** [a => a.id !== req.params.id] *)
Definition id_is_not (id : string) (a : json) : outcome bool :=
  v ← prop a "id"; mret (negb (strict_eq v (Some (JStr id)))).

(** DELETE /api/applicants/:id *)
Definition delete_applicant (id : string) : handler :=
  try_handler
    (applicants ← readDB APPLICANTS_FILE;
     l ← lift (as_array applicants);
     let initialLength := length l in
     l' ← lift (filter_js (id_is_not id) l);
     if Nat.eqb (length l') initialLength
     then mret (Json 404 (error "Applicant not found."))
     else
       writeDB APPLICANTS_FILE (JArr l');;
       mret (Json 200 (JObj {[ "message" := JStr "Applicant deleted successfully." ]})))
    (fail500 "Failed to delete applicant.").

(** [fs.writeFile(filePath, JSON.stringify(data, null, 2))] where [data] may
    be [undefined]: [JSON.stringify] then returns [undefined], which
    [fs.writeFile] rejects. *)
Definition writeDB_js (filePath : db_file) (data : jsval) : io world () :=
  match data with
  | Some data => writeDB filePath data
  | None => mthrow TypeError
  end.

(** POST /api/import of server.js: the document is the JSON request body. *)
Definition post_import (body : json) : handler :=
  try_handler
    (settings ← lift (prop body "settings");
     applicants ← lift (prop body "applicants");
     if negb (truthy settings) || negb (truthy applicants)
     then mret (Json 400 (error "Invalid import data. Missing settings or applicants."))
     else
       writeDB_js SETTINGS_FILE settings;;
       writeDB_js APPLICANTS_FILE applicants;;
       mret (Json 200 (JObj {[ "success" := JBool true;
                               "message" := JStr "Data imported successfully." ]})))
    (log_fail500 "Import error:" "Failed to import data.").

(** ** The runtime *)

Class Runtime := {
  JSON_parse : string → option json;     (* [None]: SyntaxError *)
  Number_toString : float → string;      (* String(x) for a number x *)
  StringToNumber : string → float;       (* Number(s) for a string s *)
  dirname : string;                      (* __dirname *)
  path_join : string → string → string;
  path_extname : string → string
}.

(** String(v), the conversion done by template literals, [JSON.parse] and
    [String.prototype.includes]. *)
Fixpoint ToString `{Runtime} (v : json) : string :=
  match v with
  | JNull => "null"
  | JBool true => "true"
  | JBool false => "false"
  | JNum x => Number_toString x
  | JStr s => s
  | JArr l =>
      String.concat ","
        (map (λ e, match e with JNull => EmptyString | _ => ToString e end) l)
  | JObj _ => "[object Object]"
  end.

Definition template `{Runtime} (v : jsval) : string :=
  match v with
  | Some v => ToString v
  | None => "undefined"
  end.

(** [v > 0] *)
Definition gt_zero `{Runtime} (v : jsval) : bool :=
  match v with
  | None => false
  | Some JNull => false
  | Some (JBool b) => b
  | Some (JNum x) => PrimFloat.ltb 0 x
  | Some (JStr s) => PrimFloat.ltb 0 (StringToNumber s)
  | Some v => PrimFloat.ltb 0 (StringToNumber (ToString v))
  end.

(** [s.includes(t)] on strings *)
Definition String_includes (s t : string) : bool :=
  match String.index 0 t s with
  | Some _ => true
  | None => false
  end.

(** [Array.isArray(v)] *)
Definition isArray (v : jsval) : bool :=
  match v with
  | Some (JArr _) => true
  | _ => false
  end.

(** [for (const x of l) body] *)
Fixpoint for_of {S A} (l : list A) (body : A → io S ()) : io S () :=
  match l with
  | [] => mret ()
  | x :: l' => body x;; for_of l' body
  end.

(** The values a [for ... of] loop over [v] visits. *)
Definition iterate (v : json) : outcome (list json) :=
  match v with
  | JArr l => Ok l
  | JStr s => Ok (map (λ c, JStr (String c EmptyString)) (String.list_ascii_of_string s))
  | _ => Throw TypeError
  end.

Definition CRLF : string := String "013"%char (String "010"%char EmptyString).

Definition is_alnum (c : ascii) : bool :=
  let n := nat_of_ascii c in
  (48 <=? n) && (n <=? 57) || (65 <=? n) && (n <=? 90) || (97 <=? n) && (n <=? 122).

Definition toLowerCase (c : ascii) : ascii :=
  let n := nat_of_ascii c in
  if (65 <=? n) && (n <=? 90) then ascii_of_nat (n + 32) else c.

(** [s.replace(/[^a-z0-9]/gi, '_').toLowerCase()], and with [dot] the same
    for [/[^a-z0-9.]/gi]. *)
Definition sanitize (dot : bool) (s : string) : string :=
  String.string_of_list_ascii
    (map (λ c, if is_alnum c || (dot && Ascii.eqb c "."%char) then toLowerCase c else "_"%char)
         (String.list_ascii_of_string s)).

(** [v.replace(...).toLowerCase()]: only a string has [replace]. *)
Definition replace_lower (dot : bool) (v : json) : outcome string :=
  match v with
  | JStr s => Ok (sanitize dot s)
  | _ => Throw TypeError
  end.

(** ** The archiver version: export and import

    The export and import of the version of the server that bundles archives
    (the file that loads [archiver]).  Its other routes are those above, but
    for a [console.error] in the catch block of DELETE. *)
Module Bundler.

(** [ids.length > 0], for a truthy [ids] *)
Definition length_positive `{Runtime} (ids : json) : bool :=
  match ids with
  | JArr l => bool_decide (0 < length l)
  | JStr s => bool_decide (0 < String.length s)
  | JObj o => gt_zero (o !! "length")
  | _ => false
  end.

(** [ids.includes(x)] *)
Definition includes `{Runtime} (ids : json) (x : jsval) : outcome bool :=
  match ids with
  | JArr l => Ok (existsb (λ i, same_value_zero (Some i) x) l)
  | JStr s => Ok (String_includes s (template x))
  | _ => Throw TypeError
  end.

(** [a => ids.includes(a.id)] *)
Definition is_selected `{Runtime} (ids : json) (a : json) : outcome bool :=
  id ← prop a "id"; includes ids id.

(** [ids && ids.length > 0 ? allApplicants.filter(a => ids.includes(a.id))
                           : allApplicants] *)
Definition applicantsToExport `{Runtime} (ids : jsval) (allApplicants : json)
  : outcome json :=
  match ids with
  | Some ids' =>
      if truthy ids && length_positive ids'
      then
        l ← as_array allApplicants;
        r ← filter_js (is_selected ids') l;
        Ok (JArr r)
      else Ok allApplicants
  | None => Ok allApplicants
  end.

(** [txtContent += `label: ${app.k || 'N/A'}\r\n`] *)
Definition txt_line `{Runtime} (label : string) (app : json) (k : string)
    (txtContent : string) : outcome string :=
  v ← prop app k;
  Ok (txtContent +:+ label +:+ ": " +:+ ToString (or_else v (JStr "N/A")) +:+ CRLF).

(** The callback of [applicantsToExport.forEach], on the text built so far. *)
Definition txt_applicant `{Runtime} (txtContent : string) (app : json) : outcome string :=
  t ← txt_line "Name" app "FullName" txtContent;
  t ← txt_line "Passport" app "PassportNumber" t;
  t ← txt_line "File Number" app "FileNumber" t;
  t ← txt_line "UID" app "UIDNumber" t;
  t ← txt_line "Email" app "Email" t;
  t ← txt_line "Phone" app "Phone" t;
  t ← txt_line "Nationality" app "Nationality" t;
  Ok (t +:+ "-----------------------" +:+ CRLF).

(** [l.forEach(f)] for a callback that extends [txtContent]. *)
Fixpoint forEach (f : string → json → outcome string) (l : list json) (acc : string)
  : outcome string :=
  match l with
  | [] => Ok acc
  | app :: l' => acc' ← f acc app; forEach f l' acc'
  end.

Definition txt_header : string :=
  "Applicant Data Export" +:+ CRLF +:+ "=======================" +:+ CRLF +:+ CRLF.

(** The archive being built, next to the world. *)
Abbreviation zip := (io (world * list zip_entry)).

Definition in_world {A} (m : io world A) : zip A := λ '(w, z),
  let '(r, w') := m w in (r, (w', z)).

Definition archive_add (e : zip_entry) : zip () := λ '(w, z),
  (Ok (), (w, z ++ [e])).

(** [await fs.access(filePath)] *)
Definition fs_access (filePath : string) : zip () := λ '(w, z),
  if bool_decide (filePath ∈ uploads w) then (Ok (), (w, z)) else (Throw IOError, (w, z)).

(** [path.join(__dirname, url)] and [path.extname(url)] throw a TypeError
    unless [url] is a string. *)
Definition join_dirname `{Runtime} (url : jsval) : outcome string :=
  match url with
  | Some (JStr u) => Ok (path_join dirname u)
  | _ => Throw TypeError
  end.

Definition extname `{Runtime} (url : jsval) : outcome string :=
  match url with
  | Some (JStr u) => Ok (path_extname u)
  | _ => Throw TypeError
  end.

(** The body of [for (const doc of docs)]. *)
Definition add_document `{Runtime} (applicant doc : json) : zip () :=
  url ← lift (prop doc "url");
  filePath ← lift (join_dirname url);
  try_catch
    (fs_access filePath;;
     FullName ← lift (prop applicant "FullName");
     folderName ← lift (replace_lower false (or_else FullName (JStr "unknown_applicant")));
     name ← lift (prop doc "name");
     docName ← lift (replace_lower true (or_else name (JStr "unknown_doc")));
     ext ← lift (extname url);
     archive_add (File filePath (folderName +:+ "/" +:+ docName +:+ ext)))
    (λ _, in_world (console_log (Warn ("File not found, skipping: " +:+ filePath)))).

(** [JSON.parse(v)] *)
Definition parse `{Runtime} (v : jsval) : outcome json :=
  match JSON_parse (template v) with
  | Some d => Ok d
  | None => Throw SyntaxError
  end.

(** The body of [for (const applicant of applicantsToExport)]. *)
Definition add_documents `{Runtime} (applicant : json) : zip () :=
  Documents ← lift (prop applicant "Documents");
  if truthy Documents
  then
    try_catch
      (docs ← lift (parse Documents);
       items ← lift (iterate docs);
       for_of items (add_document applicant))
      (λ _,
         id ← lift (prop applicant "id");
         in_world (console_log
           (Error ("Could not parse documents for applicant " +:+ template id))))
  else mret ().

(** Runs [m] with a new, empty archive: [archiver('zip', ...)]. *)
Definition archiver {A} (m : zip A) : io world (list zip_entry) := λ w,
  match m (w, []) with
  | (Ok _, (w', z)) => (Ok z, w')
  | (Throw e, (w', _)) => (Throw e, w')
  end.

(** POST /api/export; [now] is the value of [Date.now()].  The body is the
    object (or array) that [express.json()] parsed. *)
Definition post_export `{Runtime} (now : N) (body : json) : handler :=
  let type := own_props body !! "type" in
  let ids := own_props body !! "ids" in
  try_handler
    (allApplicants ← readDB APPLICANTS_FILE;
     settings ← readDB SETTINGS_FILE;
     selected ← lift (applicantsToExport ids allApplicants);
     if strict_eq type (Some (JStr "backup")) then
       let backupData := JObj {[ "settings" := settings; "applicants" := selected ]} in
       mret (BackupFile backupData)
     else if strict_eq type (Some (JStr "zip")) then
       let filename := "visa-tracker-export-" +:+ pretty now +:+ ".zip" in
       l ← lift (as_array selected);
       txtContent ← lift (forEach txt_applicant l txt_header);
       archive ← archiver
         (archive_add (Append txtContent "applicant-data.txt");;
          for_of l add_documents);
       mret (ZipFile filename archive)
     else mret (Json 400 (error "Invalid export type.")))
    (log_fail500 "Export error:" "Failed to export data.").

(** [req.file] of POST /api/import: no file, a file whose text is not JSON,
    or a file whose text [JSON.parse] reads as [backupData]. *)
Inductive backup_file :=
| NoFile
| NotJson
| Backup (backupData : json).

(** POST /api/import: the document is the uploaded file [backupFile]. *)
Definition post_import (file : backup_file) : handler :=
  match file with
  | NoFile => λ w, (Json 400 (error "No backup file uploaded."), w)
  | _ =>
      try_handler
        (backupData ← match file with
                      | Backup d => mret d
                      | _ => mthrow SyntaxError
                      end;
         settings ← lift (prop backupData "settings");
         applicants ← lift (prop backupData "applicants");
         if negb (truthy settings) || negb (isArray applicants)
         then mret (Json 400 (error "Invalid backup file format."))
         else
           writeDB_js SETTINGS_FILE settings;;
           writeDB_js APPLICANTS_FILE applicants;;
           mret (Json 200 (JObj {[ "message" :=
             JStr "Import successful. Application data has been restored." ]})))
        (log_fail500 "Import error:"
                     "Failed to import data. The file may be corrupt or invalid.")
  end.

End Bundler.

(** ** Notions used by the statements *)

(** [a.id] of a stored entry [a] that is not [null]. *)
Definition id_of (a : json) : jsval := own_props a !! "id".

Definition has_id (id : string) (a : json) : Prop := id_of a = Some (JStr id).

#[global] Instance has_id_dec (id : string) (a : json) : Decision (has_id id a).
Proof.
  unfold has_id.
  destruct (id_of a) as [[ | b | x | s | l | o] | ];
    try (right; discriminate).
  destruct (decide (s = id)) as [-> | Hne]; [left; reflexivity | right; congruence].
Defined.

(** No entry of the stored sequence is [null]. *)
Definition no_null (l : list json) : Prop := Forall (λ a, a ≠ JNull) l.






(** ** Effects of the archive loops *)

(** [effect m up r lines es]: run in any world whose upload directory is
    [up], with any archive, [m] ends in [r], logs [lines], adds [es] to the
    archive and does nothing else. *)
Definition effect {A} (m : Bundler.zip A) (up : gset string) (r : outcome A)
    (lines : list log_line) (es : list zip_entry) : Prop :=
  ∀ w z, uploads w = up → m (w, z) = (r, (add_log lines w, z ++ es)).

(** [has_effect m up]: [m] only logs and adds entries; [completes m up]:
    and it does not throw. *)
Definition has_effect {A} (m : Bundler.zip A) (up : gset string) : Prop :=
  ∃ r lines es, effect m up r lines es.

Definition completes {A} (m : Bundler.zip A) (up : gset string) : Prop :=
  ∃ a lines es, effect m up (Ok a) lines es.

(** What one pass of the applicants loop of the archive export does for the
    applicant [a] when the upload directory holds the files [up]: the
    entries it adds to the archive and the lines it logs, read off a run
    that starts with an empty archive and an empty console. *)
Definition blank (up : gset string) : world := World None None up [] [].

Definition archived `{Runtime} (up : gset string) (a : json) : list zip_entry :=
  (Bundler.add_documents a (blank up, [])).2.2.

Definition logged `{Runtime} (up : gset string) (a : json) : list log_line :=
  console (Bundler.add_documents a (blank up, [])).2.1.

(** The text that the summary holds for one applicant, and for a sequence. *)
Definition block `{Runtime} (app : json) : string :=
  match Bundler.txt_applicant EmptyString app with
  | Ok t => t
  | Throw _ => EmptyString
  end.


(** ** The archive as the specification describes it

    For each applicant, for each entry of its [Documents] sequence, the
    referenced file under a folder named from the sanitized full name, with
    a sanitized file name; a referenced file that is missing is skipped with
    a warning. *)

(** A free-text attribute: absent (or another falsy value) or a string. *)
Definition text_or_falsy (v : jsval) : Prop :=
  truthy v = false ∨ ∃ s, v = Some (JStr s).

(** The entries of the [Documents] sequence of [a]. *)
Definition referenced `{Runtime} (a : json) : list json :=
  let Documents := own_props a !! "Documents" in
  if truthy Documents
  then match JSON_parse (template Documents) with
       | Some (JArr docs) => docs
       | _ => []
       end
  else [].

(** A [{name, url}] pair. *)
Definition document_entry (doc : json) : Prop :=
  doc ≠ JNull
  ∧ (∃ u, own_props doc !! "url" = Some (JStr u))
  ∧ text_or_falsy (own_props doc !! "name").


Definition doc_url (doc : json) : string :=
  match own_props doc !! "url" with
  | Some (JStr u) => u
  | _ => EmptyString
  end.

Definition doc_path `{Runtime} (doc : json) : string :=
  path_join dirname (doc_url doc).

Definition text_of (v : json) : string :=
  match v with
  | JStr s => s
  | _ => EmptyString
  end.

Definition entry_name `{Runtime} (a doc : json) : string :=
  sanitize false (text_of (or_else (own_props a !! "FullName") (JStr "unknown_applicant")))
  +:+ "/"
  +:+ sanitize true (text_of (or_else (own_props doc !! "name") (JStr "unknown_doc")))
  +:+ path_extname (doc_url doc).

Definition present_files `{Runtime} (up : gset string) (a : json) : list zip_entry :=
  (λ doc, File (doc_path doc) (entry_name a doc))
    <$> filter (λ doc, doc_path doc ∈ up) (referenced a).

Definition missing_warnings `{Runtime} (up : gset string) (a : json) : list log_line :=
  (λ doc, Warn ("File not found, skipping: " +:+ doc_path doc))
    <$> filter (λ doc, doc_path doc ∉ up) (referenced a).


(** ** Example data *)

Definition seed : world := World (Some (JObj ∅)) (Some (JArr [])) ∅ [] [].

Definition uuid0 : string := "8c5f2d3e-1b4a-4c6d-9e7f-0a1b2c3d4e5f".

Definition quote : string := String (ascii_of_nat 34) EmptyString.

(** The text [[{"name":"Passport","url":"/uploads/file-1.pdf"},
               {"name":"Photo","url":"/uploads/file-2.jpg"}]] *)
Definition two_documents : string :=
  "[{" +:+ quote +:+ "name" +:+ quote +:+ ":" +:+ quote +:+ "Passport" +:+ quote +:+ ","
  +:+ quote +:+ "url" +:+ quote +:+ ":" +:+ quote +:+ "/uploads/file-1.pdf" +:+ quote +:+ "},{"
  +:+ quote +:+ "name" +:+ quote +:+ ":" +:+ quote +:+ "Photo" +:+ quote +:+ ","
  +:+ quote +:+ "url" +:+ quote +:+ ":" +:+ quote +:+ "/uploads/file-2.jpg" +:+ quote +:+ "}]".

Definition passport : json :=
  JObj {[ "name" := JStr "Passport"; "url" := JStr "/uploads/file-1.pdf" ]}.

Definition photo : json :=
  JObj {[ "name" := JStr "Photo"; "url" := JStr "/uploads/file-2.jpg" ]}.

Fixpoint last_dot (s : string) : option string :=
  match s with
  | EmptyString => None
  | String c s' =>
      match last_dot s' with
      | Some e => Some e
      | None => if Ascii.eqb c "."%char then Some s else None
      end
  end.

(** A runtime for the examples: its [JSON.parse] reads [two_documents] and
    rejects every other text. *)
Definition example_runtime : Runtime := {|
  JSON_parse := λ text,
    if String.eqb text two_documents then Some (JArr [passport; photo]) else None;
  Number_toString := λ _, "0";
  StringToNumber := λ _, 0%float;
  dirname := "/srv/visa-tracker";
  path_join := String.append;
  path_extname := λ u, default EmptyString (last_dot u)
|}.

Definition jane : json :=
  JObj {[ "id" := JStr "a"; "FullName" := JStr "Jane Doe";
          "Documents" := JStr two_documents ]}.

Definition omar : json :=
  JObj {[ "id" := JStr "b"; "FullName" := JStr "Omar"; "Documents" := JStr "[{" ]}.

Definition one_applicant : world :=
  World (Some (JObj ∅)) (Some (JArr [jane])) ∅ [] [].

(** Jane's passport scan is on disk, her photo is not. *)
Definition passport_on_disk : gset string :=
  {[ "/srv/visa-tracker/uploads/file-1.pdf" ]}.


Definition two_applicants : world :=
  World (Some (JObj ∅)) (Some (JArr [omar; jane])) passport_on_disk [] [].

Definition backup_request : json := JObj {[ "type" := JStr "backup" ]}.

Definition backup_of_jane : json :=
  JObj {[ "type" := JStr "backup"; "ids" := JArr [JStr "a"] ]}.

Definition zip_request : json := JObj {[ "type" := JStr "zip" ]}.

(** ** Notions used by the further properties *)

(** The applicants file holds a sequence without [null] entries. *)
Definition registry_ok (w : world) : Prop :=
  ∃ l, applicants_json w = Some (JArr l) ∧ no_null l.

(** The id of an entry when it is a string, as every id the routes look up
    is. *)
Definition string_id (a : json) : option string :=
  match id_of a with
  | Some (JStr s) => Some s
  | _ => None
  end.

(** No two entries have the same string id. *)
Definition unique_ids (l : list json) : Prop := NoDup (omap string_id l).

(** The world after [writeDB(APPLICANTS_FILE, l)]. *)
Definition stored (l : list json) (w : world) : world :=
  (writeDB APPLICANTS_FILE (JArr l) w).2.

(** A handler that leaves the settings, the uploads and the console alone. *)
Definition registry_only (h : handler) (w : world) : Prop :=
  settings_json (h w).2 = settings_json w
  ∧ uploads (h w).2 = uploads w
  ∧ console (h w).2 = console w.

Definition status (r : response) : nat :=
  match r with
  | Json n _ => n
  | BackupFile _ => 200
  | ZipFile _ _ => 200
  end.

(** A store whose applicants file holds a string, as the import of
    server.js can leave it. *)
Definition string_store : world :=
  World (Some (JObj ∅)) (Some (JStr "not-an-array")) ∅ [] [].

Definition with_null : world :=
  World (Some (JObj ∅)) (Some (JArr [JNull; jane])) ∅ [] [].





(** A second runtime for the examples: its [JSON.parse] reads a text with
    three entries, the second one without [url]. *)
Definition quoted (s : string) : string := quote +:+ s +:+ quote.

Definition scan : json := JObj {[ "name" := JStr "Scan" ]}.

(** The text [[{"name":"Passport","url":"/uploads/file-1.pdf"},{"name":"Scan"},
               {"name":"Photo","url":"/uploads/file-2.jpg"}]] *)
Definition three_documents : string :=
  "[{" +:+ quoted "name" +:+ ":" +:+ quoted "Passport" +:+ ","
       +:+ quoted "url" +:+ ":" +:+ quoted "/uploads/file-1.pdf" +:+ "},{"
       +:+ quoted "name" +:+ ":" +:+ quoted "Scan" +:+ "},{"
       +:+ quoted "name" +:+ ":" +:+ quoted "Photo" +:+ ","
       +:+ quoted "url" +:+ ":" +:+ quoted "/uploads/file-2.jpg" +:+ "}]".

Definition second_runtime : Runtime := {|
  JSON_parse := λ text,
    if String.eqb text three_documents then Some (JArr [passport; scan; photo])
    else if String.eqb text two_documents then Some (JArr [passport; photo])
    else None;
  Number_toString := λ _, "42";
  StringToNumber := λ _, 0%float;
  dirname := "/srv/visa-tracker";
  path_join := String.append;
  path_extname := λ u, default EmptyString (last_dot u)
|}.

Definition lina : json :=
  JObj {[ "id" := JStr "c"; "FullName" := JStr "Lina";
          "Documents" := JStr three_documents ]}.

(** An applicant whose [FullName] is a number. *)
Definition numbered : json :=
  JObj {[ "id" := JStr "d"; "FullName" := JNum 42; "Documents" := JStr two_documents ]}.

(** Both files of the examples are on disk. *)
Definition both_on_disk : gset string :=
  {[ "/srv/visa-tracker/uploads/file-1.pdf"; "/srv/visa-tracker/uploads/file-2.jpg" ]}.


Definition is_digit (c : ascii) : bool :=
  let n := nat_of_ascii c in (48 <=? n) && (n <=? 57).

Fixpoint all_digits (s : string) : bool :=
  match s with
  | EmptyString => true
  | String c s' => is_digit c && all_digits s'
  end.

(** ** Uploads

    [storage.filename] of multer's disk storage: [now] is [Date.now()] and
    [rnd] is [Math.round(Math.random() * 1E9)], both integers, written in
    decimal. *)
Definition upload_filename `{Runtime} (fieldname : string) (now rnd : N)
    (originalname : string) : string :=
  let uniqueSuffix := pretty now +:+ "-" +:+ pretty rnd in
  fieldname +:+ "-" +:+ uniqueSuffix +:+ path_extname originalname.

Definition UPLOADS_DIR `{Runtime} : string := path_join dirname "uploads".

(** An answer that may be plain text: [res.status(n).send(text)]. *)
Inductive reply :=
| Sent (status : nat) (text : string)
| Answered (r : response).

(** The world after multer stored a file at [filePath]. *)
Definition with_upload (filePath : string) (w : world) : world :=
  World (settings_json w) (applicants_json w) ({[ filePath ]} ∪ uploads w)
        (writes w) (console w).

(** POST /api/upload.  [upload.single('file')] stores the part named [file],
    when the request has one, under [UPLOADS_DIR] with the name that
    [storage.filename] gives it; [file] is the original name of that part. *)
Definition post_upload `{Runtime} (now rnd : N) (file : option string)
  : world → reply * world := λ w,
  match file with
  | None => (Sent 400 "No file uploaded.", w)
  | Some originalname =>
      let filename := upload_filename "file" now rnd originalname in
      let fileUrl := "/uploads/" +:+ filename in
      (Answered (Json 200 (JObj {[ "url" := JStr fileUrl ]})),
       with_upload (path_join UPLOADS_DIR filename) w)
  end.


(** ** Startup *)

Definition default_settings : json :=
  JObj {[ "id" := JStr "settings_1";
          "VISA_STEPS" :=
            JArr [JStr "Offer Letter"; JStr "Labour Fees"; JStr "Labour Insurance";
                  JStr "Entry Permit"; JStr "Change Status"; JStr "Medical Test";
                  JStr "Emirates ID"; JStr "Contract Submition"; JStr "Visa Stamping"] ]}.

(** The callback of [app.listen]: a database file that [fs.access] does not
    find is written with its seed, the applicants file first; [present f]
    tells whether [fs.access] finds [f]. *)
Definition listen (present : db_file → bool) (w : world) : world :=
  let w1 := if present APPLICANTS_FILE then w
            else (writeDB APPLICANTS_FILE (JArr []) w).2 in
  if present SETTINGS_FILE then w1
  else (writeDB SETTINGS_FILE default_settings w1).2.

(** A third runtime for the examples, whose [path.join] puts one separator
    between its arguments, and whose [JSON.parse] reads the text
    [[{"name":"Visa","url":"/uploads/file-5-7.pdf"}]]. *)
Definition strip_slash (s : string) : string :=
  match s with
  | String c s' => if Ascii.eqb c "/"%char then s' else s
  | EmptyString => s
  end.

Definition visa_document : json :=
  JObj {[ "name" := JStr "Visa"; "url" := JStr "/uploads/file-5-7.pdf" ]}.

Definition one_document : string :=
  "[{" +:+ quoted "name" +:+ ":" +:+ quoted "Visa" +:+ ","
       +:+ quoted "url" +:+ ":" +:+ quoted "/uploads/file-5-7.pdf" +:+ "}]".

Definition third_runtime : Runtime := {|
  JSON_parse := λ text,
    if String.eqb text one_document then Some (JArr [visa_document]) else None;
  Number_toString := λ _, "0";
  StringToNumber := λ _, 0%float;
  dirname := "/srv/visa-tracker";
  path_join := λ a b, a +:+ "/" +:+ strip_slash b;
  path_extname := λ u, default EmptyString (last_dot u)
|}.

Definition sara : json :=
  JObj {[ "id" := JStr "e"; "FullName" := JStr "Sara"; "Documents" := JStr one_document ]}.

(** * Properties *)

(** Unfolds a handler down to its reads. *)
Ltac run_handler :=
  unfold try_handler, mbind, io_bind, readDB, content, lift; simpl.

(** ** Reading ids *)

Lemma strict_eq_str (v : jsval) (s : string) :
  strict_eq v (Some (JStr s)) = true ↔ v = Some (JStr s).
Proof.
  destruct v as [[ | b | x | t | l | o] | ]; simpl; try (split; [discriminate | congruence]).
  rewrite String.eqb_eq. split; [intros -> | intros [= ->]]; reflexivity.
Qed.

Lemma prop_not_null (a : json) (k : string) :
  a ≠ JNull → prop a k = Ok (own_props a !! k).
Proof. destruct a; intros Hn; try reflexivity. contradiction. Qed.

Lemma id_is_spec (id : string) (a : json) :
  a ≠ JNull → id_is id a = Ok (bool_decide (has_id id a)).
Proof.
  intros Hn. unfold id_is. rewrite (prop_not_null _ _ Hn). simpl. f_equal.
  fold (id_of a). destruct (bool_decide_reflect (has_id id a)) as [Hy | Hy].
  - apply strict_eq_str, Hy.
  - destruct (strict_eq (id_of a) (Some (JStr id))) eqn:E; [| reflexivity].
    apply strict_eq_str in E. contradiction.
Qed.

Lemma findIndex_none (id : string) (l : list json) :
  no_null l → Forall (λ a, ¬ has_id id a) l → findIndex (id_is id) l = Ok None.
Proof.
  induction 1 as [ | a l Ha _ IH]; intros Hall; [reflexivity |].
  apply Forall_cons in Hall as [Hna Hall]. simpl.
  rewrite (id_is_spec _ _ Ha), bool_decide_false by assumption. simpl.
  rewrite (IH Hall). reflexivity.
Qed.

Lemma findIndex_first (id : string) (l : list json) (i : nat) (a : json) :
  no_null l → l !! i = Some a → has_id id a →
  (∀ j b, j < i → l !! j = Some b → ¬ has_id id b) →
  findIndex (id_is id) l = Ok (Some i).
Proof.
  intros Hnn. revert i. induction Hnn as [ | x l Hx _ IH]; intros i Hi Ha Hfirst.
  - discriminate.
  - simpl. rewrite (id_is_spec _ _ Hx). destruct i as [ | i]; simpl in Hi.
    + injection Hi as ->. rewrite bool_decide_true by assumption. reflexivity.
    + rewrite bool_decide_false by (apply (Hfirst 0 x); [lia | reflexivity]).
      simpl. rewrite (IH i Hi Ha); [reflexivity |].
      intros j b Hj Hb. apply (Hfirst (S j) b); [lia | exact Hb].
Qed.

Lemma id_is_not_spec (id : string) (a : json) :
  a ≠ JNull → id_is_not id a = Ok (bool_decide (¬ has_id id a)).
Proof.
  intros Hn. unfold id_is_not. rewrite (prop_not_null _ _ Hn). simpl. f_equal.
  fold (id_of a). destruct (bool_decide_reflect (¬ has_id id a)) as [Hy | Hy].
  - destruct (strict_eq (id_of a) (Some (JStr id))) eqn:E; [| reflexivity].
    apply strict_eq_str in E. contradiction.
  - apply dec_stable in Hy. apply strict_eq_str in Hy. rewrite Hy. reflexivity.
Qed.

Lemma filter_js_cons (p : json → outcome bool) (a : json) (l : list json) :
  filter_js p (a :: l) = (b ← p a; r ← filter_js p l; Ok (if b : bool then a :: r else r)).
Proof. reflexivity. Qed.

Lemma filter_js_spec (id : string) (l : list json) :
  no_null l →
  filter_js (id_is_not id) l = Ok (filter (λ a, ¬ has_id id a) l).
Proof.
  induction 1 as [ | a l Ha _ IH]; [reflexivity |].
  rewrite filter_js_cons, (id_is_not_spec _ _ Ha), IH. simpl.
  rewrite filter_cons. destruct (decide (¬ has_id id a)) as [Hn | Hy].
  - rewrite bool_decide_true by assumption. reflexivity.
  - rewrite bool_decide_false by assumption. reflexivity.
Qed.


(** ** Settings registry *)


(** ** Applicant registry *)







(** C3: update is a shallow overlay with a frame.  For a stored sequence
    without [null] entries: if [old] is the first record with the requested
    id, the answer is 200 with the updated record, in which every key of the
    request has the request's value and every other key the value of [old];
    the record replaces [old] in place, every other position of the sequence
    and the settings are unchanged.  If no record has the id, the answer is
    404 and the world is unchanged. *)
Theorem update_overlay (id : string) (body : json) (w : world) (l : list json) :
  applicants_json w = Some (JArr l) →
  no_null l →
  (∀ i old,
     l !! i = Some old → has_id id old →
     (∀ j b, j < i → l !! j = Some b → ¬ has_id id b) →
     ∃ updated w',
       put_applicant id body w = (Json 200 updated, w')
       ∧ (∀ k, own_props updated !! k =
               match own_props body !! k with
               | Some v => Some v
               | None => own_props old !! k
               end)
       ∧ applicants_json w' = Some (JArr (<[i := updated]> l))
       ∧ <[i := updated]> l !! i = Some updated
       ∧ (∀ j, j ≠ i → <[i := updated]> l !! j = l !! j)
       ∧ settings_json w' = settings_json w)
  ∧ (Forall (λ a, ¬ has_id id a) l →
     put_applicant id body w = (Json 404 (error "Applicant not found."), w)).
Proof.
  intros Hl Hnn. split.
  - intros i old Hi Hold Hfirst.
    unfold put_applicant. run_handler. rewrite Hl. simpl.
    rewrite (findIndex_first id l i old) by assumption. simpl.
    rewrite Hi. simpl. eexists _, _. split; [reflexivity |]. repeat split.
    + intros k. simpl. rewrite lookup_union.
      destruct (own_props body !! k), (own_props old !! k); reflexivity.
    + apply list_lookup_insert_eq. eapply lookup_lt_Some, Hi.
    + intros j Hj. apply list_lookup_insert_ne. congruence.
  - intros Hnone.
    unfold put_applicant. run_handler. rewrite Hl. simpl.
    rewrite (findIndex_none id l) by assumption. reflexivity.
Qed.

Lemma update_overlay_witness :
  (∃ updated w',
     put_applicant "a" (JObj {[ "Phone" := JStr "555" ]}) one_applicant
       = (Json 200 updated, w')
     ∧ own_props updated !! "Phone" = Some (JStr "555")
     ∧ own_props updated !! "FullName" = Some (JStr "Jane Doe"))
  ∧ put_applicant "b" (JObj {[ "Phone" := JStr "555" ]}) seed
      = (Json 404 (error "Applicant not found."), seed).
Proof.
  split.
  - destruct (update_overlay "a" (JObj {[ "Phone" := JStr "555" ]}) one_applicant [jane])
      as [Hfound _]; [reflexivity | repeat constructor; discriminate |].
    destruct (Hfound 0 jane) as (updated & w' & Hput & Hk & _);
      [reflexivity | reflexivity | intros j b Hj; lia |].
    exists updated, w'. split; [exact Hput |].
    split; [exact (Hk "Phone") | exact (Hk "FullName")].
  - destruct (update_overlay "b" (JObj {[ "Phone" := JStr "555" ]}) seed [])
      as [_ Hnone]; [reflexivity | constructor |].
    apply Hnone. constructor.
Defined.

(** C4: for a stored sequence without [null] entries, delete of an id that
    some record has answers 200, and a following list returns the stored
    sequence without the records of that id: no listed record has the id and
    every record with another id is still listed, in the stored order.
    Delete of an id that no record has answers 404 and leaves the world as
    it was: the same files and no write. *)
Theorem delete_removes (id : string) (w : world) (l : list json) :
  applicants_json w = Some (JArr l) →
  no_null l →
  (Exists (has_id id) l →
     ∃ w',
       delete_applicant id w
         = (Json 200 (JObj {[ "message" := JStr "Applicant deleted successfully." ]}), w')
       ∧ get_applicants w' = (Json 200 (JArr (filter (λ a, ¬ has_id id a) l)), w')
       ∧ Forall (λ a, ¬ has_id id a) (filter (λ a, ¬ has_id id a) l)
       ∧ (∀ a, a ∈ l → ¬ has_id id a → a ∈ filter (λ a, ¬ has_id id a) l)
       ∧ settings_json w' = settings_json w)
  ∧ (Forall (λ a, ¬ has_id id a) l →
     delete_applicant id w = (Json 404 (error "Applicant not found."), w)).
Proof.
  intros Hl Hnn. split.
  - intros Hex.
    unfold delete_applicant. run_handler. rewrite Hl. simpl.
    rewrite (filter_js_spec id l Hnn). simpl.
    assert (Hlen : length (filter (λ a, ¬ has_id id a) l) < length l).
    { apply Exists_exists in Hex as (a & Hin & Ha).
      apply (length_filter_lt _ _ a); [exact Hin | tauto]. }
    destruct (Nat.eqb_spec (length (filter (λ a, ¬ has_id id a) l)) (length l)) as [E | _];
      [lia |].
    simpl. eexists. split; [reflexivity |]. repeat split.
    + apply Forall_forall. intros a Ha. apply list_elem_of_filter in Ha. tauto.
    + intros a Hin Ha. apply list_elem_of_filter. tauto.
  - intros Hnone.
    unfold delete_applicant. run_handler. rewrite Hl. simpl.
    rewrite (filter_js_spec id l Hnn). simpl.
    assert (E : filter (λ a, ¬ has_id id a) l = l).
    { clear Hl Hnn. induction Hnone as [ | a l Ha _ IH]; [reflexivity |].
      rewrite filter_cons_True by assumption. f_equal. exact IH. }
    rewrite E, Nat.eqb_refl. reflexivity.
Qed.

Lemma delete_removes_witness :
  (∃ w', delete_applicant "a" one_applicant
           = (Json 200 (JObj {[ "message" := JStr "Applicant deleted successfully." ]}), w')
         ∧ get_applicants w' = (Json 200 (JArr []), w'))
  ∧ delete_applicant "b" seed = (Json 404 (error "Applicant not found."), seed).
Proof.
  split.
  - destruct (delete_removes "a" one_applicant [jane]) as [Hfound _];
      [reflexivity | repeat constructor; discriminate |].
    destruct Hfound as (w' & Hdel & Hget & _); [left; reflexivity |].
    exists w'. split; [exact Hdel | exact Hget].
  - destruct (delete_removes "b" seed []) as [_ Hnone]; [reflexivity | constructor |].
    apply Hnone. constructor.
Defined.

(** The scenario of the specification: create Jane Doe in the seeded
    store, list, delete, list. *)
Example jane_doe_scenario :
  let new := JObj {[ "id" := JStr uuid0; "FullName" := JStr "Jane Doe" ]} in
  let '(r1, w1) := post_applicants uuid0 (JObj {[ "FullName" := JStr "Jane Doe" ]}) seed in
  let '(r2, w2) := get_applicants w1 in
  let '(r3, w3) := delete_applicant uuid0 w2 in
  let '(r4, w4) := get_applicants w3 in
  r1 = Json 201 new
  ∧ r2 = Json 200 (JArr [new])
  ∧ r3 = Json 200 (JObj {[ "message" := JStr "Applicant deleted successfully." ]})
  ∧ r4 = Json 200 (JArr []).
Proof. vm_compute. repeat split. Qed.

(** ** Import *)

(** C5 (defect of server.js): the import of server.js only tests that
    [settings] and [applicants] are truthy.  A payload whose [applicants] is
    the string [not-an-array] is answered with 200, and the applicants file
    holds that string afterwards, where the specification asks for a 400 and
    an untouched store. *)
Theorem import_accepts_non_array (o : gmap string json) (w : world) :
  ∃ w',
    post_import (JObj {[ "settings" := JObj o; "applicants" := JStr "not-an-array" ]}) w
      = (Json 200 (JObj {[ "success" := JBool true;
                           "message" := JStr "Data imported successfully." ]}), w')
    ∧ applicants_json w' = Some (JStr "not-an-array")
    ∧ get_applicants w' = (Json 200 (JStr "not-an-array"), w').
Proof.
  unfold post_import. run_handler.
  rewrite lookup_insert_eq, lookup_insert_ne, lookup_singleton_eq by discriminate.
  simpl. eexists. repeat split.
Qed.

(** The archiver version answers the same document with 400 and leaves the
    store alone. *)
Example bundler_import_rejects_non_array :
  Bundler.post_import
    (Bundler.Backup (JObj {[ "settings" := JObj ∅; "applicants" := JStr "not-an-array" ]}))
    one_applicant
  = (Json 400 (error "Invalid backup file format."), one_applicant).
Proof. vm_compute. reflexivity. Qed.

(** The import of the archiver version validates as the specification says:
    a document that is not [null] is rejected with 400, the world unchanged,
    when its [settings] is missing (or falsy) or its [applicants] is not an
    array, and replaces both files otherwise. *)
Lemma bundler_import_validates (backupData : json) (w : world) :
  backupData ≠ JNull →
  (truthy (own_props backupData !! "settings") = false
   ∨ isArray (own_props backupData !! "applicants") = false →
   Bundler.post_import (Bundler.Backup backupData) w
     = (Json 400 (error "Invalid backup file format."), w))
  ∧ (∀ s l,
       own_props backupData !! "settings" = Some s →
       truthy (Some s) = true →
       own_props backupData !! "applicants" = Some (JArr l) →
       ∃ w',
         Bundler.post_import (Bundler.Backup backupData) w
           = (Json 200 (JObj {[ "message" :=
                JStr "Import successful. Application data has been restored." ]}), w')
         ∧ settings_json w' = Some s
         ∧ applicants_json w' = Some (JArr l)
         ∧ uploads w' = uploads w).
Proof.
  intros Hnn. unfold Bundler.post_import. run_handler.
  rewrite !(prop_not_null _ _ Hnn). split.
  - intros Hbad.
    destruct (truthy (own_props backupData !! "settings")); simpl; [| reflexivity].
    destruct Hbad as [Hbad | Hbad]; [discriminate |]. rewrite Hbad. reflexivity.
  - intros s l Hs Hts Hl. rewrite Hs, Hl.
    change (truthy (Some s) = true) in Hts. rewrite Hts. simpl.
    eexists. repeat split.
Qed.

(** ** Export *)

Lemma same_value_zero_str (n : string) (v : jsval) :
  same_value_zero (Some (JStr n)) v = true ↔ v = Some (JStr n).
Proof.
  destruct v as [[ | b | x | t | l | o] | ]; simpl; try (split; [discriminate | congruence]).
  rewrite String.eqb_eq. split; [intros -> | intros [= ->]]; reflexivity.
Qed.

Lemma includes_names `{Runtime} (names : list string) (a : json) :
  Bundler.includes (JArr (JStr <$> names)) (id_of a)
    = Ok (bool_decide (Exists (λ n, has_id n a) names)).
Proof.
  unfold Bundler.includes. f_equal.
  induction names as [ | n names IH].
  - symmetry. apply bool_decide_eq_false. intros Hex. inversion Hex.
  - rewrite fmap_cons. cbn [existsb]. rewrite IH.
    destruct (same_value_zero (Some (JStr n)) (id_of a)) eqn:E; cbn [orb]; symmetry.
    + apply same_value_zero_str in E. apply bool_decide_eq_true. left. exact E.
    + destruct (bool_decide_reflect (Exists (λ n, has_id n a) names)) as [Hy | Hn].
      * apply bool_decide_eq_true. right. exact Hy.
      * apply bool_decide_eq_false.
        intros Hex. apply Exists_cons in Hex as [Hex | Hex]; [| contradiction].
        apply same_value_zero_str in Hex. congruence.
Qed.

Lemma is_selected_names `{Runtime} (names : list string) (a : json) :
  a ≠ JNull →
  Bundler.is_selected (JArr (JStr <$> names)) a
    = Ok (bool_decide (Exists (λ n, has_id n a) names)).
Proof.
  intros Ha. unfold Bundler.is_selected. rewrite (prop_not_null _ _ Ha).
  apply includes_names.
Qed.

Lemma filter_selected_names `{Runtime} (names : list string) (l : list json) :
  no_null l →
  filter_js (Bundler.is_selected (JArr (JStr <$> names))) l
    = Ok (filter (λ a, Exists (λ n, has_id n a) names) l).
Proof.
  induction 1 as [ | a l Ha _ IH]; [reflexivity |].
  rewrite filter_js_cons, (is_selected_names _ _ Ha), IH. simpl.
  rewrite filter_cons.
  destruct (decide (Exists (λ n, has_id n a) names)) as [Hy | Hn].
  - rewrite bool_decide_true by assumption. reflexivity.
  - rewrite bool_decide_false by assumption. reflexivity.
Qed.

Lemma export_backup_all `{Runtime} (now : N) (body : json) (w : world)
    (s : json) (l : list json) :
  settings_json w = Some s →
  applicants_json w = Some (JArr l) →
  own_props body !! "type" = Some (JStr "backup") →
  own_props body !! "ids" = None ∨ own_props body !! "ids" = Some (JArr []) →
  Bundler.post_export now body w
    = (BackupFile (JObj {[ "settings" := s; "applicants" := JArr l ]}), w).
Proof.
  intros Hs Hl Htype Hids. unfold Bundler.post_export. rewrite Htype.
  destruct Hids as [Hids | Hids]; rewrite Hids; run_handler; rewrite Hl, Hs; reflexivity.
Qed.

Lemma export_backup_selected `{Runtime} (now : N) (body : json) (w : world)
    (s : json) (l : list json) (names : list string) :
  settings_json w = Some s →
  applicants_json w = Some (JArr l) →
  own_props body !! "type" = Some (JStr "backup") →
  own_props body !! "ids" = Some (JArr (JStr <$> names)) →
  names ≠ [] →
  no_null l →
  Bundler.post_export now body w
    = (BackupFile (JObj {[ "settings" := s;
                           "applicants" :=
                             JArr (filter (λ a, Exists (λ n, has_id n a) names) l) ]}),
       w).
Proof.
  intros Hs Hl Htype Hids Hne Hnn. unfold Bundler.post_export.
  rewrite Htype, Hids. run_handler. rewrite Hl, Hs.
  unfold Bundler.applicantsToExport, Bundler.length_positive.
  destruct names as [ | n names]; [contradiction |].
  change (truthy (Some (JArr (JStr <$> n :: names)))) with true.
  rewrite bool_decide_true by (simpl; lia).
  cbn [andb as_array]. simpl mbind at 1.
  change (JStr n :: list_fmap string json JStr names) with (JStr <$> n :: names).
  rewrite (filter_selected_names (n :: names) l Hnn). reflexivity.
Qed.

(** C7: the snapshot export answers with the document
    [{settings, applicants}] and changes nothing.  When [ids] is absent or
    the empty array, [applicants] is the whole stored sequence; when [ids]
    is a non-empty array of ids and no stored entry is [null], it is the
    stored applicants whose id is one of [ids], in the stored order. *)
Theorem export_snapshot `{Runtime} (now : N) (body : json) (w : world)
    (s : json) (l : list json) :
  settings_json w = Some s →
  applicants_json w = Some (JArr l) →
  own_props body !! "type" = Some (JStr "backup") →
  (own_props body !! "ids" = None ∨ own_props body !! "ids" = Some (JArr []) →
   Bundler.post_export now body w
     = (BackupFile (JObj {[ "settings" := s; "applicants" := JArr l ]}), w))
  ∧ (∀ names,
       own_props body !! "ids" = Some (JArr (JStr <$> names)) →
       names ≠ [] →
       no_null l →
       Bundler.post_export now body w
         = (BackupFile (JObj {[ "settings" := s;
                                "applicants" :=
                                  JArr (filter (λ a, Exists (λ n, has_id n a) names) l) ]}),
            w)).
Proof.
  intros Hs Hl Htype. split.
  - apply export_backup_all; assumption.
  - intros names Hids Hne Hnn. apply export_backup_selected; assumption.
Qed.

(** C6: exporting a store with type [backup] (no [ids], or an empty
    [ids]) and importing the exported document into any other store leaves
    that store with the settings document and the applicant sequence of the
    first one.  The settings document is truthy, as every object is: the
    import rejects a document whose [settings] is falsy. *)
Theorem backup_round_trip `{Runtime} (now : N) (body : json) (w fresh : world)
    (s : json) (l : list json) :
  settings_json w = Some s →
  truthy (Some s) = true →
  applicants_json w = Some (JArr l) →
  own_props body !! "type" = Some (JStr "backup") →
  own_props body !! "ids" = None ∨ own_props body !! "ids" = Some (JArr []) →
  ∃ backupData fresh',
    Bundler.post_export now body w = (BackupFile backupData, w)
    ∧ Bundler.post_import (Bundler.Backup backupData) fresh
        = (Json 200 (JObj {[ "message" :=
             JStr "Import successful. Application data has been restored." ]}), fresh')
    ∧ settings_json fresh' = Some s
    ∧ applicants_json fresh' = Some (JArr l)
    ∧ get_settings fresh' = (Json 200 s, fresh')
    ∧ get_applicants fresh' = (Json 200 (JArr l), fresh').
Proof.
  intros Hs Hts Hl Htype Hids.
  exists (JObj {[ "settings" := s; "applicants" := JArr l ]}).
  destruct (bundler_import_validates
              (JObj {[ "settings" := s; "applicants" := JArr l ]}) fresh)
    as [_ Himport]; [discriminate |].
  destruct (Himport s l) as (fresh' & Hi & Hs' & Hl' & _).
  - apply lookup_insert_eq.
  - exact Hts.
  - simpl. rewrite lookup_insert_ne by discriminate. apply lookup_singleton_eq.
  - exists fresh'. repeat split; try assumption.
    + apply export_backup_all; assumption.
    + unfold get_settings. run_handler. rewrite Hs'. reflexivity.
    + unfold get_applicants. run_handler. rewrite Hl'. reflexivity.
Qed.

(** ** Archive export: effects of the loops *)

Lemma add_log_nil (w : world) : add_log [] w = w.
Proof. destruct w. unfold add_log. simpl. rewrite app_nil_r. reflexivity. Qed.

Lemma add_log_app (l1 l2 : list log_line) (w : world) :
  add_log l2 (add_log l1 w) = add_log (l1 ++ l2) w.
Proof. unfold add_log. simpl. rewrite app_assoc. reflexivity. Qed.

Section effects.
Context {A B : Type} (up : gset string).

Lemma effect_lift (r : outcome A) : effect (lift r) up r [] [].
Proof. intros w z _. unfold lift. rewrite add_log_nil, app_nil_r. reflexivity. Qed.

Lemma effect_ret (a : A) : effect (mret a) up (Ok a) [] [].
Proof. apply (effect_lift (Ok a)). Qed.

Lemma effect_bind (m : Bundler.zip A) (k : A → Bundler.zip B) a r l1 l2 e1 e2 :
  effect m up (Ok a) l1 e1 → effect (k a) up r l2 e2 →
  effect (m ≫= k) up r (l1 ++ l2) (e1 ++ e2).
Proof.
  intros Hm Hk w z Hw. unfold mbind, io_bind. rewrite (Hm w z Hw).
  rewrite (Hk (add_log l1 w) (z ++ e1)) by exact Hw.
  rewrite add_log_app, app_assoc. reflexivity.
Qed.

Lemma effect_bind_throw (m : Bundler.zip A) (k : A → Bundler.zip B) e l1 e1 :
  effect m up (Throw e) l1 e1 → effect (m ≫= k) up (Throw e) l1 e1.
Proof. intros Hm w z Hw. unfold mbind, io_bind. rewrite (Hm w z Hw). reflexivity. Qed.

Lemma effect_try_ok (m : Bundler.zip A) (h : exn → Bundler.zip A) a l1 e1 :
  effect m up (Ok a) l1 e1 → effect (try_catch m h) up (Ok a) l1 e1.
Proof. intros Hm w z Hw. unfold try_catch. rewrite (Hm w z Hw). reflexivity. Qed.

Lemma effect_try_throw (m : Bundler.zip A) (h : exn → Bundler.zip A) e r l1 l2 e1 e2 :
  effect m up (Throw e) l1 e1 → effect (h e) up r l2 e2 →
  effect (try_catch m h) up r (l1 ++ l2) (e1 ++ e2).
Proof.
  intros Hm Hh w z Hw. unfold try_catch. rewrite (Hm w z Hw).
  rewrite (Hh (add_log l1 w) (z ++ e1)) by exact Hw.
  rewrite add_log_app, app_assoc. reflexivity.
Qed.
End effects.

Lemma effect_console (up : gset string) (line : log_line) :
  effect (Bundler.in_world (console_log line)) up (Ok ()) [line] [].
Proof. intros w z _. simpl. rewrite app_nil_r. reflexivity. Qed.

Lemma effect_archive_add (up : gset string) (e : zip_entry) :
  effect (Bundler.archive_add e) up (Ok ()) [] [e].
Proof. intros w z _. simpl. rewrite add_log_nil. reflexivity. Qed.

Lemma effect_access (up : gset string) (filePath : string) :
  effect (Bundler.fs_access filePath) up
         (if bool_decide (filePath ∈ up) then Ok () else Throw IOError) [] [].
Proof.
  intros w z <-. unfold Bundler.fs_access. rewrite add_log_nil, app_nil_r.
  destruct (bool_decide (filePath ∈ uploads w)); reflexivity.
Qed.

(** Every computation has at most one effect. *)
Lemma effect_unique {A} (m : Bundler.zip A) up r r' l l' e e' :
  effect m up r l e → effect m up r' l' e' → r = r' ∧ l = l' ∧ e = e'.
Proof.
  intros H1 H2. specialize (H1 (blank up) [] eq_refl).
  rewrite (H2 (blank up) [] eq_refl) in H1. simpl in H1.
  injection H1 as -> -> ->. auto.
Qed.

Lemma completes_has_effect {A} (m : Bundler.zip A) up :
  completes m up → has_effect m up.
Proof. intros (a & l & e & H). exists (Ok a), l, e. exact H. Qed.

Lemma has_effect_lift {A} (r : outcome A) up : has_effect (lift r) up.
Proof. exists r, [], []. apply effect_lift. Qed.

Lemma has_effect_bind {A B} (m : Bundler.zip A) (k : A → Bundler.zip B) up :
  has_effect m up → (∀ a, has_effect (k a) up) → has_effect (m ≫= k) up.
Proof.
  intros ([a | e] & l1 & e1 & Hm) Hk.
  - destruct (Hk a) as (r & l2 & e2 & Hka).
    exists r, (l1 ++ l2), (e1 ++ e2). eapply effect_bind; eassumption.
  - exists (Throw e), l1, e1. apply effect_bind_throw, Hm.
Qed.

Lemma completes_bind {A B} (m : Bundler.zip A) (k : A → Bundler.zip B) up :
  completes m up → (∀ a, completes (k a) up) → completes (m ≫= k) up.
Proof.
  intros (a & l1 & e1 & Hm) Hk. destruct (Hk a) as (b & l2 & e2 & Hka).
  exists b, (l1 ++ l2), (e1 ++ e2). eapply effect_bind; eassumption.
Qed.

Lemma completes_try {A} (m : Bundler.zip A) (h : exn → Bundler.zip A) up :
  has_effect m up → (∀ e, completes (h e) up) → completes (try_catch m h) up.
Proof.
  intros ([a | e] & l1 & e1 & Hm) Hh.
  - exists a, l1, e1. apply effect_try_ok, Hm.
  - destruct (Hh e) as (b & l2 & e2 & Hhe).
    exists b, (l1 ++ l2), (e1 ++ e2). eapply effect_try_throw; eassumption.
Qed.

Lemma completes_console up (line : log_line) :
  completes (Bundler.in_world (console_log line)) up.
Proof. exists (), [line], []. apply effect_console. Qed.

Lemma has_effect_for_of {X} (l : list X) (body : X → Bundler.zip ()) up :
  (∀ x, has_effect (body x) up) → has_effect (for_of l body) up.
Proof.
  intros Hbody. induction l as [ | x l IH]; simpl.
  - exists (Ok ()), [], []. apply effect_ret.
  - apply has_effect_bind; [apply Hbody | intros _; exact IH].
Qed.

Lemma has_effect_add_document `{Runtime} (a doc : json) up :
  has_effect (Bundler.add_document a doc) up.
Proof.
  unfold Bundler.add_document.
  apply has_effect_bind; [apply has_effect_lift | intros url].
  apply has_effect_bind; [apply has_effect_lift | intros filePath].
  apply completes_has_effect, completes_try; [| intros _; apply completes_console].
  repeat (apply has_effect_bind; [try apply has_effect_lift | intros ?]).
  - eexists _, _, _. apply effect_access.
  - eexists _, _, _. apply effect_archive_add.
Qed.

(** For an applicant that is not [null], the loop body completes. *)
Lemma completes_add_documents `{Runtime} (a : json) up :
  a ≠ JNull → completes (Bundler.add_documents a) up.
Proof.
  intros Ha. unfold Bundler.add_documents.
  rewrite !(prop_not_null a _ Ha).
  eapply completes_bind; [exists (own_props a !! "Documents"), [], []; apply effect_lift |].
  intros Documents. destruct (truthy Documents).
  - apply completes_try.
    + apply has_effect_bind; [apply has_effect_lift | intros docs].
      apply has_effect_bind; [apply has_effect_lift | intros items].
      apply has_effect_for_of. intros doc. apply has_effect_add_document.
    + intros _.
      eapply completes_bind; [exists (own_props a !! "id"), [], []; apply effect_lift |].
      intros id. apply completes_console.
  - exists (), [], []. apply effect_ret.
Qed.

Lemma effect_add_documents `{Runtime} (a : json) up :
  a ≠ JNull →
  effect (Bundler.add_documents a) up (Ok ()) (logged up a) (archived up a).
Proof.
  intros Ha. destruct (completes_add_documents a up Ha) as ([] & l & e & Heff).
  unfold logged, archived. rewrite (Heff (blank up) [] eq_refl). exact Heff.
Qed.


(** ** Archive export: the text summary *)

Lemma append_assoc (a b c : string) : (a +:+ b) +:+ c = a +:+ (b +:+ c).
Proof.
  induction a as [ | x a IH]; [reflexivity |].
  change (String x ((a +:+ b) +:+ c) = String x (a +:+ (b +:+ c))).
  rewrite IH. reflexivity.
Qed.


Lemma txt_applicant_append `{Runtime} (app : json) (acc : string) :
  app ≠ JNull → Bundler.txt_applicant acc app = Ok (acc +:+ block app).
Proof.
  intros Ha. unfold block, Bundler.txt_applicant, Bundler.txt_line.
  rewrite !(prop_not_null app _ Ha). simpl.
  rewrite !append_assoc. reflexivity.
Qed.



Lemma try_handler_ok (body : io world response) (onError : handler) (w w' : world)
    (r : response) :
  body w = (Ok r, w') → try_handler body onError w = (r, w').
Proof. intros Hb. unfold try_handler. rewrite Hb. reflexivity. Qed.

Lemma bind_ok {S A B} (m : io S A) (k : A → io S B) (s s' : S) (a : A) :
  m s = (Ok a, s') → (m ≫= k) s = k a s'.
Proof. intros Hm. unfold mbind, io_bind. rewrite Hm. reflexivity. Qed.

Lemma readDB_ok (f : db_file) (w : world) (v : json) :
  content f w = Some v → readDB f w = (Ok v, w).
Proof. intros Hc. unfold readDB. rewrite Hc. reflexivity. Qed.



(** ** Archive export: applicants whose documents are listed *)









(** An applicant without documents (no [Documents], or an empty string) is
    passed over in silence. *)
Lemma effect_no_documents `{Runtime} (a : json) (up : gset string) :
  a ≠ JNull →
  truthy (own_props a !! "Documents") = false →
  effect (Bundler.add_documents a) up (Ok ()) [] [].
Proof.
  intros Ha Ht. unfold Bundler.add_documents. rewrite !(prop_not_null a _ Ha).
  refine (effect_bind up _ _ _ _ [] _ [] _ (effect_lift up _) _). cbv beta.
  rewrite Ht. apply effect_ret.
Qed.


Lemma export_snapshot_witness :
  Bundler.post_export (H := example_runtime) 0 backup_request two_applicants
    = (BackupFile (JObj {[ "settings" := JObj ∅; "applicants" := JArr [omar; jane] ]}),
       two_applicants)
  ∧ Bundler.post_export (H := example_runtime) 0 backup_of_jane two_applicants
    = (BackupFile (JObj {[ "settings" := JObj ∅;
                           "applicants" :=
                             JArr (filter (λ a, Exists (λ n, has_id n a) ["a"])
                                          [omar; jane]) ]}),
       two_applicants).
Proof.
  split.
  - apply (export_snapshot (H := example_runtime) 0 backup_request two_applicants
             (JObj ∅) [omar; jane]); [reflexivity | reflexivity | reflexivity |].
    left. reflexivity.
  - apply (export_snapshot (H := example_runtime) 0 backup_of_jane two_applicants
             (JObj ∅) [omar; jane] eq_refl eq_refl eq_refl).
    + reflexivity.
    + discriminate.
    + repeat constructor; discriminate.
Defined.

Example export_selected_example :
  filter (λ a, Exists (λ n, has_id n a) ["a"]) [omar; jane] = [jane].
Proof. vm_compute. reflexivity. Qed.

Lemma backup_round_trip_witness :
  ∃ backupData fresh',
    Bundler.post_export (H := example_runtime) 0 backup_request two_applicants
      = (BackupFile backupData, two_applicants)
    ∧ Bundler.post_import (Bundler.Backup backupData) seed
        = (Json 200 (JObj {[ "message" :=
             JStr "Import successful. Application data has been restored." ]}), fresh')
    ∧ settings_json fresh' = Some (JObj ∅)
    ∧ applicants_json fresh' = Some (JArr [omar; jane])
    ∧ get_settings fresh' = (Json 200 (JObj ∅), fresh')
    ∧ get_applicants fresh' = (Json 200 (JArr [omar; jane]), fresh').
Proof.
  apply (backup_round_trip (H := example_runtime) 0 backup_request two_applicants seed
           (JObj ∅) [omar; jane]); try reflexivity.
  left. reflexivity.
Defined.



Example zip_missing_file_example :
  flat_map (present_files (H := example_runtime) passport_on_disk) [jane]
    = [File "/srv/visa-tracker/uploads/file-1.pdf" "jane_doe/passport.pdf"]
  ∧ flat_map (missing_warnings (H := example_runtime) passport_on_disk) [jane]
    = [Warn "File not found, skipping: /srv/visa-tracker/uploads/file-2.jpg"].
Proof. split; vm_compute; reflexivity. Qed.


Example zip_unparsable_example :
  Bundler.post_export (H := example_runtime) 0 zip_request two_applicants
    = (ZipFile "visa-tracker-export-0.zip"
         [Append (Bundler.txt_header
                  +:+ "Name: Omar" +:+ CRLF +:+ "Passport: N/A" +:+ CRLF
                  +:+ "File Number: N/A" +:+ CRLF +:+ "UID: N/A" +:+ CRLF
                  +:+ "Email: N/A" +:+ CRLF +:+ "Phone: N/A" +:+ CRLF
                  +:+ "Nationality: N/A" +:+ CRLF +:+ "-----------------------" +:+ CRLF
                  +:+ "Name: Jane Doe" +:+ CRLF +:+ "Passport: N/A" +:+ CRLF
                  +:+ "File Number: N/A" +:+ CRLF +:+ "UID: N/A" +:+ CRLF
                  +:+ "Email: N/A" +:+ CRLF +:+ "Phone: N/A" +:+ CRLF
                  +:+ "Nationality: N/A" +:+ CRLF +:+ "-----------------------" +:+ CRLF)
                 "applicant-data.txt";
          File "/srv/visa-tracker/uploads/file-1.pdf" "jane_doe/passport.pdf"],
       add_log [Error "Could not parse documents for applicant b";
                Warn "File not found, skipping: /srv/visa-tracker/uploads/file-2.jpg"]
               two_applicants).
Proof. vm_compute. reflexivity. Qed.

(** * Further properties *)

(** ** The applicant registry on any store *)

Lemma findIndex_spec (id : string) (l : list json) :
  no_null l →
  (findIndex (id_is id) l = Ok None ∧ Forall (λ a, ¬ has_id id a) l)
  ∨ (∃ i a, findIndex (id_is id) l = Ok (Some i) ∧ l !! i = Some a ∧ has_id id a
            ∧ ∀ j b, j < i → l !! j = Some b → ¬ has_id id b).
Proof.
  induction 1 as [ | x l Hx Hnn IH].
  - left. split; [reflexivity | constructor].
  - assert (Hnn' : no_null (x :: l)) by (constructor; assumption).
    destruct (decide (has_id id x)) as [Hy | Hn].
    + right. exists 0, x.
      assert (Hfirst : ∀ j b, j < 0 → (x :: l) !! j = Some b → ¬ has_id id b)
        by (intros j b Hj; lia).
      split; [| split; [reflexivity | split; [exact Hy | exact Hfirst]]].
      apply (findIndex_first id (x :: l) 0 x); auto.
    + destruct IH as [[_ Hall] | (i & a & _ & Hi & Ha & Hfirst)].
      * left. assert (Hall' : Forall (λ a, ¬ has_id id a) (x :: l))
          by (constructor; assumption).
        split; [apply findIndex_none; assumption | exact Hall'].
      * right. exists (S i), a.
        assert (Hfirst' : ∀ j b, j < S i → (x :: l) !! j = Some b → ¬ has_id id b).
        { intros [ | j] b Hj Hb; simpl in Hb.
          - injection Hb as <-. exact Hn.
          - apply (Hfirst j b); [lia | exact Hb]. }
        split; [| split; [exact Hi | split; [exact Ha | exact Hfirst']]].
        apply (findIndex_first id (x :: l) (S i) a); auto.
Qed.

Lemma put_found (id : string) (body : json) (w : world) (l : list json) (i : nat) (a : json) :
  applicants_json w = Some (JArr l) →
  findIndex (id_is id) l = Ok (Some i) →
  l !! i = Some a →
  put_applicant id body w
    = (Json 200 (JObj (own_props body ∪ own_props a)),
       stored (<[i := JObj (own_props body ∪ own_props a)]> l) w).
Proof.
  intros Hl Hf Hi. unfold put_applicant. run_handler. rewrite Hl. simpl.
  rewrite Hf. simpl. rewrite Hi. reflexivity.
Qed.

Lemma put_not_found (id : string) (body : json) (w : world) (l : list json) :
  applicants_json w = Some (JArr l) →
  findIndex (id_is id) l = Ok None →
  put_applicant id body w = (Json 404 (error "Applicant not found."), w).
Proof.
  intros Hl Hf. unfold put_applicant. run_handler. rewrite Hl. simpl.
  rewrite Hf. reflexivity.
Qed.

Lemma delete_found (id : string) (w : world) (l : list json) :
  applicants_json w = Some (JArr l) →
  no_null l →
  Exists (has_id id) l →
  delete_applicant id w
    = (Json 200 (JObj {[ "message" := JStr "Applicant deleted successfully." ]}),
       stored (filter (λ a, ¬ has_id id a) l) w).
Proof.
  intros Hl Hnn Hex. unfold delete_applicant. run_handler. rewrite Hl. simpl.
  rewrite (filter_js_spec id l Hnn). simpl.
  assert (Hlen : length (filter (λ a, ¬ has_id id a) l) < length l).
  { apply Exists_exists in Hex as (a & Hin & Ha).
    apply (length_filter_lt _ _ a); [exact Hin | tauto]. }
  destruct (Nat.eqb_spec (length (filter (λ a, ¬ has_id id a) l)) (length l)) as [E | _];
    [lia | reflexivity].
Qed.

Lemma filter_all (id : string) (l : list json) :
  Forall (λ a, ¬ has_id id a) l → filter (λ a, ¬ has_id id a) l = l.
Proof.
  induction 1 as [ | a l Ha _ IH]; [reflexivity |].
  rewrite filter_cons_True by assumption. f_equal. exact IH.
Qed.

Lemma delete_not_found (id : string) (w : world) (l : list json) :
  applicants_json w = Some (JArr l) →
  no_null l →
  Forall (λ a, ¬ has_id id a) l →
  delete_applicant id w = (Json 404 (error "Applicant not found."), w).
Proof.
  intros Hl Hnn Hno. unfold delete_applicant. run_handler. rewrite Hl. simpl.
  rewrite (filter_js_spec id l Hnn). simpl.
  rewrite (filter_all id l Hno), Nat.eqb_refl. reflexivity.
Qed.

Lemma post_stored (uuid : string) (body : json) (w : world) (l : list json) :
  applicants_json w = Some (JArr l) →
  post_applicants uuid body w
    = (Json 201 (JObj (own_props body ∪ {[ "id" := JStr uuid ]})),
       stored (JObj (own_props body ∪ {[ "id" := JStr uuid ]}) :: l) w).
Proof.
  intros Hl. unfold post_applicants. run_handler. rewrite Hl. reflexivity.
Qed.

(** X1: when the applicants file is unreadable or holds anything but an
    array, create, update and delete answer 500 with their own message and
    change nothing: no file is written, nothing is logged. *)
Theorem mutations_need_an_array (uuid id : string) (body : json) (w : world) :
  (∀ l, applicants_json w ≠ Some (JArr l)) →
  post_applicants uuid body w = (Json 500 (error "Failed to add applicant."), w)
  ∧ put_applicant id body w = (Json 500 (error "Failed to update applicant."), w)
  ∧ delete_applicant id w = (Json 500 (error "Failed to delete applicant."), w).
Proof.
  intros Hno. unfold post_applicants, put_applicant, delete_applicant. run_handler.
  destruct (applicants_json w) as [[ | b | x | s | l | o] | ]; simpl;
    try (repeat split; reflexivity).
  destruct (Hno l eq_refl).
Qed.


Lemma mutations_need_an_array_witness :
  post_applicants uuid0 (JObj ∅) string_store
    = (Json 500 (error "Failed to add applicant."), string_store)
  ∧ put_applicant "a" (JObj ∅) string_store
    = (Json 500 (error "Failed to update applicant."), string_store)
  ∧ delete_applicant "a" string_store
    = (Json 500 (error "Failed to delete applicant."), string_store).
Proof.
  apply (mutations_need_an_array uuid0 "a" (JObj ∅) string_store).
  intros l. discriminate.
Defined.

Lemma null_or_not (x : json) : x = JNull ∨ x ≠ JNull.
Proof. destruct x; [left; reflexivity | right; discriminate ..]. Qed.

Lemma filter_js_null (p : json → outcome bool) (l : list json) (n : nat) :
  (∀ a, a ≠ JNull → ∃ b, p a = Ok b) →
  p JNull = Throw TypeError →
  l !! n = Some JNull →
  filter_js p l = Throw TypeError.
Proof.
  intros Hok Hnull. revert n. induction l as [ | x l IH]; intros n Hn; [discriminate |].
  rewrite filter_js_cons. destruct (null_or_not x) as [-> | Hx].
  - rewrite Hnull. reflexivity.
  - destruct (Hok x Hx) as [b ->]. destruct n as [ | n]; simpl in Hn.
    + congruence.
    + simpl. rewrite (IH n Hn). reflexivity.
Qed.

Lemma findIndex_null (id : string) (l : list json) (n : nat) :
  l !! n = Some JNull →
  (∀ j b, j < n → l !! j = Some b → ¬ has_id id b) →
  findIndex (id_is id) l = Throw TypeError.
Proof.
  revert n. induction l as [ | x l IH]; intros n Hn Hfirst; [discriminate |].
  simpl. destruct (null_or_not x) as [-> | Hx]; [reflexivity |].
  rewrite (id_is_spec _ _ Hx). destruct n as [ | n]; simpl in Hn; [congruence |].
  rewrite bool_decide_false by (apply (Hfirst 0 x); [lia | reflexivity]).
  simpl. rewrite (IH n Hn); [reflexivity |].
  intros j b Hj Hb. apply (Hfirst (S j) b); [lia | exact Hb].
Qed.

(** X2: a [null] entry in the stored sequence makes every delete answer 500,
    and every update whose id is not found before the [null]; the store is
    left as it was.  (Reading [a.id] of [null] throws inside the callback.) *)
Theorem null_entry_fails_lookup (id : string) (body : json) (w : world)
    (l : list json) (n : nat) :
  applicants_json w = Some (JArr l) →
  l !! n = Some JNull →
  delete_applicant id w = (Json 500 (error "Failed to delete applicant."), w)
  ∧ ((∀ j b, j < n → l !! j = Some b → ¬ has_id id b) →
     put_applicant id body w = (Json 500 (error "Failed to update applicant."), w)).
Proof.
  intros Hl Hn. split.
  - unfold delete_applicant. run_handler. rewrite Hl. simpl.
    rewrite (filter_js_null (id_is_not id) l n); [reflexivity | | reflexivity | exact Hn].
    intros a Ha. rewrite (id_is_not_spec id a Ha). eauto.
  - intros Hfirst. unfold put_applicant. run_handler. rewrite Hl. simpl.
    rewrite (findIndex_null id l n Hn Hfirst). reflexivity.
Qed.

Lemma null_entry_fails_lookup_witness :
  delete_applicant "a" with_null
    = (Json 500 (error "Failed to delete applicant."), with_null)
  ∧ put_applicant "a" (JObj ∅) with_null
    = (Json 500 (error "Failed to update applicant."), with_null).
Proof.
  destruct (null_entry_fails_lookup "a" (JObj ∅) with_null [JNull; jane] 0)
    as [Hdel Hput]; [reflexivity | reflexivity |].
  split; [exact Hdel | apply Hput; intros j b Hj; lia].
Defined.

(** ** Invariants of the applicant registry *)

Lemma findIndex_total (id : string) (l : list json) :
  no_null l →
  findIndex (id_is id) l = Ok None
  ∨ ∃ i a, findIndex (id_is id) l = Ok (Some i) ∧ l !! i = Some a ∧ has_id id a.
Proof.
  intros Hnn. destruct (findIndex_spec id l Hnn) as [[Hf _] | (i & a & Hf & Hi & Ha & _)];
    [left; exact Hf | right; eauto].
Qed.

Lemma has_id_dec_cases (id : string) (l : list json) :
  Exists (has_id id) l ∨ Forall (λ a, ¬ has_id id a) l.
Proof.
  destruct (decide (Exists (has_id id) l)) as [Hex | Hno]; [left; exact Hex | right].
  apply Forall_forall. intros a Hin Ha. apply Hno, Exists_exists. eauto.
Qed.

Lemma no_null_filter (P : json → Prop) `{∀ a, Decision (P a)} (l : list json) :
  no_null l → no_null (filter P l).
Proof.
  intros Hnn. apply Forall_forall. intros a Ha.
  apply list_elem_of_filter in Ha as [_ Ha].
  unfold no_null in Hnn. rewrite Forall_forall in Hnn. exact (Hnn a Ha).
Qed.

(** X3: create, update and delete keep the registry well formed and touch
    nothing else.  From a store whose applicants file is a sequence without
    [null] entries, each of them (whatever its outcome) leaves such a
    sequence, and leaves the settings, the uploads and the console as they
    were; each writes the applicants file at most once. *)
Theorem mutations_keep_registry (uuid id : string) (body : json) (w : world) :
  registry_ok w →
  ∀ h, h = post_applicants uuid body ∨ h = put_applicant id body ∨ h = delete_applicant id →
    registry_ok (h w).2
    ∧ registry_only h w
    ∧ (writes (h w).2 = writes w
       ∨ ∃ l', writes (h w).2 = writes w ++ [(APPLICANTS_FILE, JArr l')]).
Proof.
  intros (l & Hl & Hnn) h [-> | [-> | ->]]; unfold registry_only.
  - rewrite (post_stored uuid body w l Hl). simpl.
    split; [| split; [repeat split | right; eauto]].
    eexists. split; [reflexivity |]. constructor; [discriminate | exact Hnn].
  - destruct (findIndex_total id l Hnn) as [Hf | (i & a & Hf & Hi & _)].
    + rewrite (put_not_found id body w l Hl Hf). simpl.
      split; [exists l; auto | split; [repeat split | left; reflexivity]].
    + rewrite (put_found id body w l i a Hl Hf Hi). simpl.
      split; [| split; [repeat split | right; eauto]].
      eexists. split; [reflexivity |]. apply Forall_insert; [exact Hnn | discriminate].
  - destruct (has_id_dec_cases id l) as [Hex | Hno].
    + rewrite (delete_found id w l Hl Hnn Hex). simpl.
      split; [| split; [repeat split | right; eauto]].
      eexists. split; [reflexivity |]. apply no_null_filter, Hnn.
    + rewrite (delete_not_found id w l Hl Hnn Hno). simpl.
      split; [exists l; auto | split; [repeat split | left; reflexivity]].
Qed.

Lemma mutations_keep_registry_witness :
  registry_ok (put_applicant "a" (JObj {[ "Phone" := JStr "555" ]}) one_applicant).2.
Proof.
  apply (mutations_keep_registry uuid0 "a" (JObj {[ "Phone" := JStr "555" ]}) one_applicant).
  - exists [jane]. split; [reflexivity | repeat constructor; discriminate].
  - right. left. reflexivity.
Defined.

Lemma string_id_has_id (s : string) (a : json) : string_id a = Some s ↔ has_id s a.
Proof.
  unfold string_id, has_id.
  destruct (id_of a) as [[ | b | x | t | l | o] | ]; split; intros E; try discriminate;
    injection E as ->; reflexivity.
Qed.

Lemma fresh_id_not_listed (s : string) (l : list json) :
  Forall (λ a, ¬ has_id s a) l → s ∉ omap string_id l.
Proof.
  intros Hall Hin. apply list_elem_of_omap in Hin as (a & Ha & Hs).
  apply string_id_has_id in Hs. rewrite Forall_forall in Hall. exact (Hall a Ha Hs).
Qed.

Lemma unique_ids_filter (P : json → Prop) `{∀ a, Decision (P a)} (l : list json) :
  unique_ids l → unique_ids (filter P l).
Proof.
  unfold unique_ids. induction l as [ | a l IH]; intros Hnd; [constructor |].
  assert (Hl : NoDup (omap string_id l)).
  { simpl in Hnd. destruct (string_id a); [apply NoDup_cons in Hnd as [_ Hnd] |]; exact Hnd. }
  rewrite filter_cons. destruct (decide (P a)); [| apply IH, Hl].
  simpl in *. destruct (string_id a) as [s | ]; [| apply IH, Hl].
  apply NoDup_cons in Hnd as [Hs _]. apply NoDup_cons. split; [| apply IH, Hl].
  intros Hin. apply Hs. apply list_elem_of_omap in Hin as (b & Hb & Hbs).
  apply list_elem_of_omap. exists b. apply list_elem_of_filter in Hb as [_ Hb]. auto.
Qed.

Lemma omap_insert_same_id (l : list json) (i : nat) (a u : json) :
  l !! i = Some a → string_id u = string_id a →
  omap string_id (<[i := u]> l) = omap string_id l.
Proof.
  intros Hi Hid.
  rewrite (insert_take_drop l i u) by (eapply lookup_lt_Some, Hi).
  rewrite <- (take_drop_middle l i a Hi) at 3.
  rewrite !omap_app. simpl. rewrite Hid. reflexivity.
Qed.

Lemma overlay_keeps_id (body : json) (a : json) :
  own_props body !! "id" = None →
  id_of (JObj (own_props body ∪ own_props a)) = id_of a.
Proof. intros Hb. unfold id_of. simpl. apply lookup_union_r, Hb. Qed.

(** X4: the three mutations keep the ids of the registry unique, as long as
    request bodies carry no [id] key and a generated id is not in use: from a
    sequence without [null] entries in which no two entries have the same
    id, create, update and delete each leave such a sequence. *)
Theorem mutations_keep_ids_unique (uuid id : string) (body : json) (w : world)
    (l : list json) :
  applicants_json w = Some (JArr l) →
  no_null l →
  unique_ids l →
  own_props body !! "id" = None →
  (Forall (λ a, ¬ has_id uuid a) l →
   ∃ l', applicants_json (post_applicants uuid body w).2 = Some (JArr l') ∧ unique_ids l')
  ∧ (∃ l', applicants_json (put_applicant id body w).2 = Some (JArr l') ∧ unique_ids l')
  ∧ (∃ l', applicants_json (delete_applicant id w).2 = Some (JArr l') ∧ unique_ids l').
Proof.
  intros Hl Hnn Hu Hb. split; [| split].
  - intros Hfresh. rewrite (post_stored uuid body w l Hl). simpl.
    eexists. split; [reflexivity |]. unfold unique_ids. simpl.
    assert (Hid : string_id (JObj (own_props body ∪ {[ "id" := JStr uuid ]})) = Some uuid).
    { apply string_id_has_id. unfold has_id, id_of. simpl.
      rewrite lookup_union_r by exact Hb. apply lookup_singleton_eq. }
    rewrite Hid. apply NoDup_cons. split; [apply fresh_id_not_listed, Hfresh | exact Hu].
  - destruct (findIndex_total id l Hnn) as [Hf | (i & a & Hf & Hi & _)].
    + rewrite (put_not_found id body w l Hl Hf). eauto.
    + rewrite (put_found id body w l i a Hl Hf Hi). simpl.
      eexists. split; [reflexivity |]. unfold unique_ids.
      rewrite (omap_insert_same_id l i a _ Hi); [exact Hu |].
      unfold string_id. rewrite (overlay_keeps_id body a Hb). reflexivity.
  - destruct (has_id_dec_cases id l) as [Hex | Hno].
    + rewrite (delete_found id w l Hl Hnn Hex). simpl.
      eexists. split; [reflexivity |]. apply unique_ids_filter, Hu.
    + rewrite (delete_not_found id w l Hl Hnn Hno). eauto.
Qed.

Lemma mutations_keep_ids_unique_witness :
  ∃ l', applicants_json (post_applicants uuid0 (JObj {[ "FullName" := JStr "Omar" ]})
                                         one_applicant).2 = Some (JArr l')
        ∧ unique_ids l'.
Proof.
  apply (mutations_keep_ids_unique uuid0 "a" (JObj {[ "FullName" := JStr "Omar" ]})
           one_applicant [jane]).
  - reflexivity.
  - repeat constructor; discriminate.
  - vm_compute. repeat constructor. intros Hin. inversion Hin.
  - reflexivity.
  - repeat constructor. vm_compute. discriminate.
Defined.

(** ** How the registry operations compose *)

(** X5: a delete that is repeated answers 404 and changes nothing: after
    any delete of [id], found or not, no record has that id. *)
Theorem delete_twice (id : string) (w : world) :
  registry_ok w →
  delete_applicant id (delete_applicant id w).2
    = (Json 404 (error "Applicant not found."), (delete_applicant id w).2).
Proof.
  intros (l & Hl & Hnn). destruct (has_id_dec_cases id l) as [Hex | Hno].
  - rewrite (delete_found id w l Hl Hnn Hex). simpl.
    apply (delete_not_found id _ (filter (λ a, ¬ has_id id a) l)).
    + reflexivity.
    + apply no_null_filter, Hnn.
    + apply Forall_forall. intros a Ha. apply list_elem_of_filter in Ha. tauto.
  - rewrite (delete_not_found id w l Hl Hnn Hno). simpl.
    apply (delete_not_found id w l Hl Hnn Hno).
Qed.

Lemma delete_twice_witness :
  delete_applicant "a" (delete_applicant "a" one_applicant).2
    = (Json 404 (error "Applicant not found."), (delete_applicant "a" one_applicant).2).
Proof.
  apply (delete_twice "a" one_applicant).
  exists [jane]. split; [reflexivity | repeat constructor; discriminate].
Defined.

(** X6: create followed by delete of the generated id gives back the stored
    sequence, when the body has no [id] key and the generated id was not in
    use: the delete answers 200 and the applicants file holds the sequence
    it held before the create. *)
Theorem create_then_delete (uuid : string) (body : json) (w : world) (l : list json) :
  applicants_json w = Some (JArr l) →
  no_null l →
  Forall (λ a, ¬ has_id uuid a) l →
  own_props body !! "id" = None →
  ∃ w',
    delete_applicant uuid (post_applicants uuid body w).2
      = (Json 200 (JObj {[ "message" := JStr "Applicant deleted successfully." ]}), w')
    ∧ applicants_json w' = Some (JArr l)
    ∧ settings_json w' = settings_json w.
Proof.
  intros Hl Hnn Hfresh Hb. rewrite (post_stored uuid body w l Hl). cbn [snd].
  set (new := JObj (own_props body ∪ {[ "id" := JStr uuid ]})).
  assert (Hnew : has_id uuid new).
  { unfold has_id, id_of, new. simpl. rewrite lookup_union_r by exact Hb.
    apply lookup_singleton_eq. }
  rewrite (delete_found uuid (stored (new :: l) w) (new :: l)).
  - eexists. split; [reflexivity |]. simpl. split; [| reflexivity].
    rewrite filter_cons_False by tauto. rewrite (filter_all uuid l Hfresh). reflexivity.
  - reflexivity.
  - constructor; [discriminate | exact Hnn].
  - left. exact Hnew.
Qed.

Lemma create_then_delete_witness :
  ∃ w',
    delete_applicant uuid0
      (post_applicants uuid0 (JObj {[ "FullName" := JStr "Omar" ]}) one_applicant).2
      = (Json 200 (JObj {[ "message" := JStr "Applicant deleted successfully." ]}), w')
    ∧ applicants_json w' = Some (JArr [jane])
    ∧ settings_json w' = settings_json one_applicant.
Proof.
  apply (create_then_delete uuid0 (JObj {[ "FullName" := JStr "Omar" ]}) one_applicant [jane]).
  - reflexivity.
  - repeat constructor; discriminate.
  - repeat constructor. vm_compute. discriminate.
  - reflexivity.
Defined.

Lemma overlay_twice (body a : json) :
  own_props body ∪ own_props (JObj (own_props body ∪ own_props a))
    = own_props body ∪ own_props a.
Proof.
  simpl. apply map_eq. intros k. rewrite !lookup_union.
  destruct (own_props body !! k), (own_props a !! k); reflexivity.
Qed.

(** X7: update is idempotent.  When the body has no [id] key, sending the
    same update a second time gets the same answer and leaves the applicants
    file as the first update left it. *)
Theorem update_twice (id : string) (body : json) (w : world) :
  registry_ok w →
  own_props body !! "id" = None →
  (put_applicant id body (put_applicant id body w).2).1 = (put_applicant id body w).1
  ∧ applicants_json (put_applicant id body (put_applicant id body w).2).2
    = applicants_json (put_applicant id body w).2.
Proof.
  intros (l & Hl & Hnn) Hb.
  destruct (findIndex_spec id l Hnn) as [[Hf _] | (i & a & Hf & Hi & Ha & Hfirst)].
  - rewrite (put_not_found id body w l Hl Hf). cbn [snd].
    rewrite (put_not_found id body w l Hl Hf). split; reflexivity.
  - rewrite (put_found id body w l i a Hl Hf Hi). cbn [fst snd].
    set (u := JObj (own_props body ∪ own_props a)).
    assert (Hlt : i < length l) by (eapply lookup_lt_Some, Hi).
    assert (Hf' : findIndex (id_is id) (<[i := u]> l) = Ok (Some i)).
    { apply (findIndex_first id _ i u).
      - apply Forall_insert; [exact Hnn | discriminate].
      - apply list_lookup_insert_eq, Hlt.
      - unfold has_id, u. rewrite (overlay_keeps_id body a Hb). exact Ha.
      - intros j b Hj Hjb. rewrite list_lookup_insert_ne in Hjb by lia.
        apply (Hfirst j b Hj Hjb). }
    rewrite (put_found id body (stored (<[i := u]> l) w) (<[i := u]> l) i u);
      [| reflexivity | exact Hf' | apply list_lookup_insert_eq, Hlt].
    cbn [fst snd].
    assert (Hu : JObj (own_props body ∪ own_props u) = u)
      by (unfold u; rewrite overlay_twice; reflexivity).
    rewrite Hu, list_insert_insert_eq. split; reflexivity.
Qed.

Lemma update_twice_witness :
  (put_applicant "a" (JObj {[ "Phone" := JStr "555" ]})
     (put_applicant "a" (JObj {[ "Phone" := JStr "555" ]}) one_applicant).2).1
    = (put_applicant "a" (JObj {[ "Phone" := JStr "555" ]}) one_applicant).1.
Proof.
  apply (update_twice "a" (JObj {[ "Phone" := JStr "555" ]}) one_applicant).
  - exists [jane]. split; [reflexivity | repeat constructor; discriminate].
  - reflexivity.
Defined.

(** X8: an [id] key of the request body decides the stored id.  Create
    stores and returns the body's [id] value, not the generated one, and an
    update of a record that is found gives it the body's [id] value. *)
Theorem body_id_is_stored (uuid id : string) (body : json) (w : world)
    (l : list json) (v : json) :
  applicants_json w = Some (JArr l) →
  own_props body !! "id" = Some v →
  (∃ record w',
     post_applicants uuid body w = (Json 201 record, w')
     ∧ id_of record = Some v
     ∧ applicants_json w' = Some (JArr (record :: l)))
  ∧ (no_null l → Exists (has_id id) l →
     ∃ updated w',
       put_applicant id body w = (Json 200 updated, w')
       ∧ id_of updated = Some v).
Proof.
  intros Hl Hv. split.
  - rewrite (post_stored uuid body w l Hl). eexists _, _. split; [reflexivity |].
    split; [| reflexivity]. unfold id_of. simpl. apply lookup_union_Some_l, Hv.
  - intros Hnn Hex.
    destruct (findIndex_spec id l Hnn) as [[_ Hno] | (i & a & Hf & Hi & _)].
    + apply Exists_exists in Hex as (a & Hin & Ha).
      rewrite Forall_forall in Hno. destruct (Hno a Hin Ha).
    + rewrite (put_found id body w l i a Hl Hf Hi). eexists _, _. split; [reflexivity |].
      unfold id_of. simpl. apply lookup_union_Some_l, Hv.
Qed.

Lemma body_id_is_stored_witness :
  ∃ updated w',
    put_applicant "a" (JObj {[ "id" := JNull ]}) one_applicant = (Json 200 updated, w')
    ∧ id_of updated = Some JNull.
Proof.
  destruct (body_id_is_stored uuid0 "a" (JObj {[ "id" := JNull ]}) one_applicant [jane] JNull)
    as [_ Hput]; [reflexivity | reflexivity |].
  apply Hput; [repeat constructor; discriminate | left; reflexivity].
Defined.

(** ** Import *)

(** X9: the import of server.js on a body that is not [null].  It answers
    400 and changes nothing exactly when [settings] or [applicants] is
    missing or falsy; otherwise it answers 200 after two writes, the settings
    file first, and both files hold the values of the body, whatever their
    shape. *)
Theorem import_body_validates (body : json) (w : world) :
  body ≠ JNull →
  (truthy (own_props body !! "settings") = false
   ∨ truthy (own_props body !! "applicants") = false →
   post_import body w
     = (Json 400 (error "Invalid import data. Missing settings or applicants."), w))
  ∧ (∀ s a,
       own_props body !! "settings" = Some s →
       own_props body !! "applicants" = Some a →
       truthy (Some s) = true →
       truthy (Some a) = true →
       post_import body w
         = (Json 200 (JObj {[ "success" := JBool true;
                              "message" := JStr "Data imported successfully." ]}),
            World (Some s) (Some a) (uploads w)
                  (writes w ++ [(SETTINGS_FILE, s); (APPLICANTS_FILE, a)])
                  (console w))).
Proof.
  intros Hnn. unfold post_import. run_handler.
  rewrite !(prop_not_null _ _ Hnn). split.
  - intros Hbad.
    destruct (truthy (own_props body !! "settings")); simpl; [| reflexivity].
    destruct Hbad as [Hbad | Hbad]; [discriminate |]. rewrite Hbad. reflexivity.
  - intros s a Hs Ha Hts Hta. rewrite Hs, Ha.
    change (truthy (Some s) = true) in Hts. change (truthy (Some a) = true) in Hta.
    rewrite Hts, Hta. simpl. rewrite <- app_assoc. reflexivity.
Qed.

Lemma import_body_validates_witness :
  post_import (JObj {[ "settings" := JObj ∅ ]}) one_applicant
    = (Json 400 (error "Invalid import data. Missing settings or applicants."),
       one_applicant).
Proof.
  apply (import_body_validates (JObj {[ "settings" := JObj ∅ ]}) one_applicant);
    [discriminate | right; reflexivity].
Defined.


(** ** Export *)

Lemma has_effect_try {A} (m : Bundler.zip A) (h : exn → Bundler.zip A) up :
  has_effect m up → (∀ e, has_effect (h e) up) → has_effect (try_catch m h) up.
Proof.
  intros ([a | e] & l1 & e1 & Hm) Hh.
  - exists (Ok a), l1, e1. apply effect_try_ok, Hm.
  - destruct (Hh e) as (r & l2 & e2 & Hhe).
    exists r, (l1 ++ l2), (e1 ++ e2). eapply effect_try_throw; eassumption.
Qed.

Lemma has_effect_add_documents `{Runtime} (a : json) up :
  has_effect (Bundler.add_documents a) up.
Proof.
  unfold Bundler.add_documents.
  apply has_effect_bind; [apply has_effect_lift | intros Documents].
  destruct (truthy Documents); [| exists (Ok ()), [], []; apply effect_ret].
  apply has_effect_try.
  - apply has_effect_bind; [apply has_effect_lift | intros docs].
    apply has_effect_bind; [apply has_effect_lift | intros items].
    apply has_effect_for_of. intros doc. apply has_effect_add_document.
  - intros _. apply has_effect_bind; [apply has_effect_lift | intros id].
    apply completes_has_effect, completes_console.
Qed.

Lemma archiver_only_logs {A} (m : Bundler.zip A) (w : world) :
  has_effect m (uploads w) → ∃ lines, (Bundler.archiver m w).2 = add_log lines w.
Proof.
  intros (r & lines & es & Heff). exists lines. unfold Bundler.archiver.
  rewrite (Heff w [] eq_refl). destruct r; reflexivity.
Qed.

Lemma try_handler_logs (body : io world response) (line msg : string) (w : world) :
  (∃ lines, (body w).2 = add_log lines w) →
  ∃ lines, (try_handler body (log_fail500 line msg) w).2 = add_log lines w.
Proof.
  intros [lines Hb]. unfold try_handler. destruct (body w) as [[r | e] w']; simpl in *.
  - exists lines. exact Hb.
  - exists (lines ++ [Error line]). rewrite Hb. apply add_log_app.
Qed.

Lemma bind_logs {A B} (m : io world A) (k : A → io world B) (w : world) :
  (∃ lines, (m w).2 = add_log lines w) →
  (∀ a w', ∃ lines, (k a w').2 = add_log lines w') →
  ∃ lines, ((m ≫= k) w).2 = add_log lines w.
Proof.
  intros [l1 Hm] Hk. unfold mbind, io_bind. destruct (m w) as [[a | e] w']; simpl in *.
  - destruct (Hk a w') as [l2 Hka]. exists (l1 ++ l2). rewrite Hka, Hm. apply add_log_app.
  - exists l1. exact Hm.
Qed.

Lemma readDB_logs (f : db_file) (w : world) :
  ∃ lines, (readDB f w).2 = add_log lines w.
Proof.
  exists []. unfold readDB. rewrite add_log_nil. destruct (content f w); reflexivity.
Qed.

Lemma lift_logs {A} (r : outcome A) (w : world) :
  ∃ lines, (lift (S := world) r w).2 = add_log lines w.
Proof. exists []. rewrite add_log_nil. reflexivity. Qed.

(** X11: the export is read-only.  For every request and every store, in
    snapshot mode, archive mode or on any error, the world after
    [POST /api/export] is the world before with some lines added to the
    console: no file is written, none is removed from the uploads. *)
Theorem export_is_read_only `{Runtime} (now : N) (body : json) (w : world) :
  ∃ lines, (Bundler.post_export now body w).2 = add_log lines w.
Proof.
  unfold Bundler.post_export. apply try_handler_logs.
  apply bind_logs; [apply readDB_logs | intros allApplicants w1].
  apply bind_logs; [apply readDB_logs | intros settings w2].
  apply bind_logs; [apply lift_logs | intros selected w3].
  destruct (strict_eq _ _); [apply (lift_logs (Ok _)) |].
  destruct (strict_eq _ _); [| apply (lift_logs (Ok _))].
  apply bind_logs; [apply lift_logs | intros l w4].
  apply bind_logs; [apply lift_logs | intros txtContent w5].
  apply bind_logs; [| intros archive w6; apply (lift_logs (Ok _))].
  apply archiver_only_logs.
  apply has_effect_bind; [eexists _, _, _; apply effect_archive_add | intros _].
  apply has_effect_for_of. intros a. apply has_effect_add_documents.
Qed.

Lemma strict_eq_str_false (v : jsval) (s : string) :
  v ≠ Some (JStr s) → strict_eq v (Some (JStr s)) = false.
Proof.
  intros Hne. destruct (strict_eq v (Some (JStr s))) eqn:E; [| reflexivity].
  apply strict_eq_str in E. contradiction.
Qed.

(** X12: the export reads the store and selects the applicants before it
    looks at [type].  With an unreadable applicants or settings file it
    answers 500 and logs the error, whatever the type; an invalid or missing
    type is answered with 400, the world unchanged, only when both files
    were read and the selection succeeded. *)
Theorem export_checks_type_last `{Runtime} (now : N) (body : json) (w : world) :
  (applicants_json w = None ∨ settings_json w = None →
   Bundler.post_export now body w
     = (Json 500 (error "Failed to export data."), add_log [Error "Export error:"] w))
  ∧ (∀ all s selected,
       applicants_json w = Some all →
       settings_json w = Some s →
       Bundler.applicantsToExport (own_props body !! "ids") all = Ok selected →
       own_props body !! "type" ≠ Some (JStr "backup") →
       own_props body !! "type" ≠ Some (JStr "zip") →
       Bundler.post_export now body w = (Json 400 (error "Invalid export type."), w)).
Proof.
  split.
  - intros Hbad. unfold Bundler.post_export. run_handler.
    destruct (applicants_json w) as [all | ]; [| reflexivity].
    destruct Hbad as [Hbad | Hbad]; [discriminate |]. rewrite Hbad. reflexivity.
  - intros all s selected Hall Hs Hsel Hb Hz. unfold Bundler.post_export.
    apply try_handler_ok.
    rewrite (bind_ok _ _ w w all) by (apply readDB_ok, Hall).
    rewrite (bind_ok _ _ w w s) by (apply readDB_ok, Hs).
    rewrite Hsel. rewrite (bind_ok _ _ w w selected) by reflexivity.
    rewrite (strict_eq_str_false _ _ Hb), (strict_eq_str_false _ _ Hz). reflexivity.
Qed.

Lemma export_checks_type_last_witness :
  Bundler.post_export (H := example_runtime) 0 zip_request (blank ∅)
    = (Json 500 (error "Failed to export data."), add_log [Error "Export error:"] (blank ∅))
  ∧ Bundler.post_export (H := example_runtime) 0 (JObj ∅) one_applicant
    = (Json 400 (error "Invalid export type."), one_applicant).
Proof.
  split.
  - destruct (export_checks_type_last (H := example_runtime) 0 zip_request (blank ∅))
      as [Hread _].
    apply Hread. left. reflexivity.
  - destruct (export_checks_type_last (H := example_runtime) 0 (JObj ∅) one_applicant)
      as [_ Htype].
    apply (Htype (JArr [jane]) (JObj ∅) (JArr [jane])); try reflexivity; discriminate.
Defined.

Lemma forEach_null `{Runtime} (l : list json) (n : nat) (acc : string) :
  l !! n = Some JNull →
  Bundler.forEach Bundler.txt_applicant l acc = Throw TypeError.
Proof.
  revert n acc. induction l as [ | x l IH]; intros n acc Hn; [discriminate |].
  simpl. destruct (null_or_not x) as [-> | Hx]; [reflexivity |].
  rewrite (txt_applicant_append x acc Hx). destruct n as [ | n]; simpl in Hn; [congruence |].
  simpl. apply (IH n), Hn.
Qed.

(** X13: a [null] entry among the selected applicants makes the archive
    export fail: it answers 500 and logs the error, no archive is sent. *)
Theorem zip_fails_on_null_entry `{Runtime} (now : N) (body : json) (w : world)
    (s all : json) (selected : list json) (n : nat) :
  settings_json w = Some s →
  applicants_json w = Some all →
  own_props body !! "type" = Some (JStr "zip") →
  Bundler.applicantsToExport (own_props body !! "ids") all = Ok (JArr selected) →
  selected !! n = Some JNull →
  Bundler.post_export now body w
    = (Json 500 (error "Failed to export data."), add_log [Error "Export error:"] w).
Proof.
  intros Hs Hall Htype Hsel Hn. unfold Bundler.post_export. rewrite Htype.
  unfold try_handler.
  rewrite (bind_ok _ _ w w all) by (apply readDB_ok, Hall).
  rewrite (bind_ok _ _ w w s) by (apply readDB_ok, Hs).
  rewrite Hsel. rewrite (bind_ok _ _ w w (JArr selected)) by reflexivity.
  change (strict_eq (Some (JStr "zip")) (Some (JStr "backup"))) with false.
  change (strict_eq (Some (JStr "zip")) (Some (JStr "zip"))) with true.
  cbv iota.
  rewrite (bind_ok _ _ w w selected) by reflexivity.
  rewrite (forEach_null selected n _ Hn). reflexivity.
Qed.

Lemma zip_fails_on_null_entry_witness :
  Bundler.post_export (H := example_runtime) 0 zip_request with_null
    = (Json 500 (error "Failed to export data."),
       add_log [Error "Export error:"] with_null).
Proof.
  apply (zip_fails_on_null_entry (H := example_runtime) 0 zip_request with_null
           (JObj ∅) (JArr [JNull; jane]) [JNull; jane] 0); reflexivity.
Defined.

Lemma filter_js_sublist (p : json → outcome bool) (l r : list json) :
  filter_js p l = Ok r → r `sublist_of` l.
Proof.
  revert r. induction l as [ | a l IH]; intros r Hr.
  - injection Hr as <-. constructor.
  - rewrite filter_js_cons in Hr. destruct (p a) as [b | e]; [| discriminate].
    simpl in Hr. destruct (filter_js p l) as [r' | e]; [| discriminate].
    simpl in Hr. injection Hr as <-.
    destruct b; [apply sublist_skip | apply sublist_cons]; apply IH; reflexivity.
Qed.

(** X14: the export selects stored applicants only.  Whatever [ids] is,
    when the selection from a stored sequence succeeds it is a sequence, and
    a subsequence of the stored one: every exported applicant is a stored
    record, unchanged, and the stored order is kept. *)
Theorem export_selects_stored `{Runtime} (ids : jsval) (l : list json) (selected : json) :
  Bundler.applicantsToExport ids (JArr l) = Ok selected →
  ∃ sel, selected = JArr sel ∧ sel `sublist_of` l.
Proof.
  unfold Bundler.applicantsToExport. intros Hsel.
  destruct ids as [ids | ]; [| injection Hsel as <-; eauto].
  destruct (truthy (Some ids) && Bundler.length_positive ids);
    [| injection Hsel as <-; eauto].
  simpl in Hsel. destruct (filter_js (Bundler.is_selected ids) l) as [r | e] eqn:Hf;
    [| discriminate].
  simpl in Hsel. injection Hsel as <-. exists r. split; [reflexivity |].
  apply (filter_js_sublist _ _ _ Hf).
Qed.

Lemma export_selects_stored_witness :
  ∃ sel, JArr [jane] = JArr sel ∧ sel `sublist_of` [omar; jane].
Proof.
  apply (export_selects_stored (H := example_runtime) (Some (JArr [JStr "a"]))
           [omar; jane] (JArr [jane])).
  vm_compute. reflexivity.
Defined.

(** ** Archive export: documents that are not [{name, url}] pairs *)




Lemma effect_after_lift {A B} up (a : A) (k : A → Bundler.zip B) r l e :
  effect (k a) up r l e → effect (lift (Ok a) ≫= k) up r l e.
Proof. intros Hk. exact (effect_bind up _ _ a r [] l [] e (effect_lift up (Ok a)) Hk). Qed.



Lemma passport_entry : document_entry passport.
Proof.
  split; [discriminate | split; [eexists; reflexivity | right; eexists; reflexivity]].
Defined.

Lemma photo_entry : document_entry photo.
Proof.
  split; [discriminate | split; [eexists; reflexivity | right; eexists; reflexivity]].
Defined.


Example malformed_document_example :
  archived (H := second_runtime) both_on_disk lina
    = [File "/srv/visa-tracker/uploads/file-1.pdf" "lina/passport.pdf"]
  ∧ logged (H := second_runtime) both_on_disk lina
    = [Error "Could not parse documents for applicant c"].
Proof. split; vm_compute; reflexivity. Qed.

Lemma replace_lower_not_text (dot : bool) (v : json) (d : string) :
  truthy (Some v) = true → (∀ s, v ≠ JStr s) →
  replace_lower dot (or_else (Some v) (JStr d)) = Throw TypeError.
Proof.
  intros Ht Hv. unfold or_else. rewrite Ht.
  destruct v; try reflexivity. destruct (Hv s eq_refl).
Qed.

Lemma effect_add_document_odd_name `{Runtime} (a doc v : json) (up : gset string) :
  a ≠ JNull →
  own_props a !! "FullName" = Some v →
  truthy (Some v) = true →
  (∀ s, v ≠ JStr s) →
  document_entry doc →
  effect (Bundler.add_document a doc) up (Ok ())
    [Warn ("File not found, skipping: " +:+ doc_path doc)] [].
Proof.
  intros Ha Hv Ht Hns (Hdoc & [u Hu] & _) w z <-.
  unfold Bundler.add_document, doc_path, doc_url.
  rewrite !(prop_not_null doc _ Hdoc), !(prop_not_null a _ Ha), Hu, Hv.
  unfold mbind, io_bind, try_catch, lift, Bundler.fs_access.
  cbn -[replace_lower or_else sanitize String.append].
  destruct (bool_decide (path_join dirname u ∈ uploads w)).
  - rewrite (replace_lower_not_text false v _ Ht Hns).
    cbn -[String.append]. rewrite app_nil_r. reflexivity.
  - cbn -[String.append]. rewrite app_nil_r. reflexivity.
Qed.

Lemma effect_documents_loop_odd_name `{Runtime} (a v : json) (docs : list json)
    (up : gset string) :
  a ≠ JNull →
  own_props a !! "FullName" = Some v →
  truthy (Some v) = true →
  (∀ s, v ≠ JStr s) →
  Forall document_entry docs →
  effect (for_of docs (Bundler.add_document a)) up (Ok ())
    ((λ doc, Warn ("File not found, skipping: " +:+ doc_path doc)) <$> docs) [].
Proof.
  intros Ha Hv Ht Hns. induction 1 as [ | doc docs Hdoc _ IH]; simpl.
  - apply effect_ret.
  - exact (effect_bind up _ _ () (Ok ()) [_] _ [] _
             (effect_add_document_odd_name a doc v up Ha Hv Ht Hns Hdoc) IH).
Qed.

(** X16: a [FullName] that is truthy and not a string (a number, say) keeps
    every document of the applicant out of the archive.  Building the folder
    name throws inside the [try] that guards [fs.access], so each document,
    its file present or not, is reported as [File not found, skipping] and
    none is added. *)
Theorem odd_full_name_skips_documents `{Runtime} (a v : json) (up : gset string) :
  a ≠ JNull →
  own_props a !! "FullName" = Some v →
  truthy (Some v) = true →
  (∀ s, v ≠ JStr s) →
  (truthy (own_props a !! "Documents") = true →
   ∃ docs, JSON_parse (template (own_props a !! "Documents")) = Some (JArr docs)) →
  Forall document_entry (referenced a) →
  archived up a = []
  ∧ logged up a
    = (λ doc, Warn ("File not found, skipping: " +:+ doc_path doc)) <$> referenced a.
Proof.
  intros Ha Hv Ht Hns Hparse Hdocs.
  assert (Heff : effect (Bundler.add_documents a) up (Ok ())
            ((λ doc, Warn ("File not found, skipping: " +:+ doc_path doc))
               <$> referenced a) []).
  { unfold referenced in *. unfold Bundler.add_documents.
    rewrite !(prop_not_null a _ Ha). apply effect_after_lift.
    destruct (truthy (own_props a !! "Documents")) eqn:Htd.
    - destruct (Hparse eq_refl) as [docs Hp]. rewrite Hp in Hdocs |- *.
      apply effect_try_ok. unfold Bundler.parse. rewrite Hp.
      apply effect_after_lift. apply (effect_after_lift up docs).
      exact (effect_documents_loop_odd_name a v docs up Ha Hv Ht Hns Hdocs).
    - apply effect_ret. }
  destruct (effect_unique _ up _ _ _ _ _ _ (effect_add_documents a up Ha) Heff)
    as (_ & Hlog & Harch).
  split; assumption.
Qed.

Lemma odd_full_name_skips_documents_witness :
  archived (H := second_runtime) both_on_disk numbered = []
  ∧ logged (H := second_runtime) both_on_disk numbered
    = (λ doc, Warn ("File not found, skipping: " +:+ doc_path (H := second_runtime) doc))
        <$> referenced (H := second_runtime) numbered.
Proof.
  apply (odd_full_name_skips_documents (H := second_runtime) numbered (JNum 42) both_on_disk).
  - discriminate.
  - reflexivity.
  - reflexivity.
  - intros s. discriminate.
  - intros _. exists [passport; photo]. vm_compute. reflexivity.
  - change (Forall document_entry [passport; photo]).
    constructor; [exact passport_entry | constructor; [exact photo_entry | constructor]].
Defined.

Example odd_full_name_example :
  logged (H := second_runtime) both_on_disk numbered
    = [Warn "File not found, skipping: /srv/visa-tracker/uploads/file-1.pdf";
       Warn "File not found, skipping: /srv/visa-tracker/uploads/file-2.jpg"].
Proof. vm_compute. reflexivity. Qed.

(** ** Archive export: what the archive can hold *)














(** ** Sanitized names *)





Example sanitize_example :
  sanitize false "Jane O'Neil/../x" = "jane_o_neil____x"
  ∧ sanitize true "Passport (v2).PDF" = "passport__v2_.pdf".
Proof. split; vm_compute; reflexivity. Qed.

(** ** Uploads *)

Lemma length_append (a b : string) :
  String.length (a +:+ b) = String.length a + String.length b.
Proof.
  induction a as [ | c a IH]; [reflexivity |].
  change (S (String.length (a +:+ b)) = S (String.length a + String.length b)).
  rewrite IH. reflexivity.
Qed.

Lemma append_cancel_r (a b e : string) : a +:+ e = b +:+ e → a = b.
Proof.
  revert b. induction a as [ | c a IH]; intros [ | c' b] Heq.
  - reflexivity.
  - apply (f_equal String.length) in Heq. rewrite !length_append in Heq.
    simpl in Heq. lia.
  - apply (f_equal String.length) in Heq. rewrite !length_append in Heq.
    simpl in Heq. lia.
  - change (String c (a +:+ e) = String c' (b +:+ e)) in Heq.
    injection Heq as -> Heq. rewrite (IH b Heq). reflexivity.
Qed.

Lemma pretty_N_char_digit (x : N) : is_digit (pretty_N_char x) = true.
Proof. unfold pretty_N_char. repeat case_match; reflexivity. Qed.

Lemma pretty_N_go_digits (x : N) (s : string) :
  all_digits s = true → all_digits (pretty_N_go x s) = true.
Proof.
  revert s. induction (N.lt_wf_0 x) as [x _ IH]; intros s Hs.
  assert (x = 0 ∨ 0 < x)%N as [-> | Hx] by lia.
  - rewrite pretty_N_go_0. exact Hs.
  - rewrite pretty_N_go_step by exact Hx. apply IH.
    + apply N.div_lt; [exact Hx | reflexivity].
    + simpl. rewrite pretty_N_char_digit, Hs. reflexivity.
Qed.

Lemma pretty_N_digits (x : N) : all_digits (pretty x) = true.
Proof.
  unfold pretty, pretty_N. case_decide; [reflexivity |].
  apply pretty_N_go_digits. reflexivity.
Qed.

Lemma digits_split (d1 d2 x y : string) :
  all_digits d1 = true → all_digits d2 = true →
  d1 +:+ "-" +:+ x = d2 +:+ "-" +:+ y → d1 = d2 ∧ x = y.
Proof.
  revert d2. induction d1 as [ | c d1 IH]; intros [ | c' d2] H1 H2 Heq.
  - change (String "-"%char x = String "-"%char y) in Heq.
    injection Heq as ->. split; reflexivity.
  - change (String "-"%char x = String c' (d2 +:+ "-" +:+ y)) in Heq.
    injection Heq as <- _. simpl in H2. discriminate.
  - change (String c (d1 +:+ "-" +:+ x) = String "-"%char y) in Heq.
    injection Heq as -> _. simpl in H1. discriminate.
  - change (String c (d1 +:+ "-" +:+ x) = String c' (d2 +:+ "-" +:+ y)) in Heq.
    injection Heq as -> Heq. simpl in H1, H2.
    apply andb_prop in H1 as [_ H1]. apply andb_prop in H2 as [_ H2].
    destruct (IH d2 H1 H2 Heq) as [-> ->]. split; reflexivity.
Qed.

(** X19: stored file names do not collide.  Two uploads in the same field
    whose original names have the same extension get the same stored name
    only if they were made at the same millisecond and drew the same random
    number. *)
Theorem upload_filename_injective `{Runtime} (fieldname : string) (now now' rnd rnd' : N)
    (originalname originalname' : string) :
  path_extname originalname = path_extname originalname' →
  upload_filename fieldname now rnd originalname
    = upload_filename fieldname now' rnd' originalname' →
  now = now' ∧ rnd = rnd'.
Proof.
  unfold upload_filename. intros <- Heq.
  apply (inj (String.append fieldname)) in Heq.
  change ("-" +:+ ?s) with (String "-"%char s) in Heq. injection Heq as Heq.
  rewrite !append_assoc in Heq.
  apply digits_split in Heq as [Hnow Hrnd]; try apply pretty_N_digits.
  apply append_cancel_r in Hrnd.
  split; [apply (inj pretty), Hnow | apply (inj pretty), Hrnd].
Qed.

Lemma upload_filename_injective_witness : 5%N = 5%N ∧ 7%N = 7%N.
Proof.
  apply (upload_filename_injective (H := example_runtime) "file" 5 5 7 7
           "passport.pdf" "visa.pdf"); reflexivity.
Defined.

Example upload_filename_example :
  upload_filename (H := example_runtime) "file" 1700000000000 123456789 "Passport Scan.PDF"
    = "file-1700000000000-123456789.PDF".
Proof. vm_compute. reflexivity. Qed.



Example uploaded_document_example :
  archived (H := third_runtime)
    (uploads (post_upload (H := third_runtime) 5 7 (Some "visa.pdf") one_applicant).2) sara
  = [File "/srv/visa-tracker/uploads/file-5-7.pdf" "sara/visa.pdf"].
Proof. vm_compute. reflexivity. Qed.

(** ** Startup *)

(** X21: startup seeds what is missing and overwrites nothing.  A database
    file that [fs.access] finds is left as it is, readable or not.  When the
    applicants file is missing, the listing is empty after startup and the
    registry is usable; when the settings file is missing, the settings are
    the default nine steps.  The uploads are not touched. *)
Theorem startup_seeds_missing_files (present : db_file → bool) (w : world) :
  (∀ f, present f = true → content f (listen present w) = content f w)
  ∧ (present APPLICANTS_FILE = false →
     get_applicants (listen present w) = (Json 200 (JArr []), listen present w)
     ∧ registry_ok (listen present w))
  ∧ (present SETTINGS_FILE = false →
     get_settings (listen present w) = (Json 200 default_settings, listen present w))
  ∧ uploads (listen present w) = uploads w.
Proof.
  assert (Hnil : no_null []) by (unfold no_null; constructor).
  unfold listen, get_applicants, get_settings, registry_ok. run_handler.
  destruct (present APPLICANTS_FILE) eqn:Ha, (present SETTINGS_FILE) eqn:Hs; simpl.
  - split; [intros [] Hf; simpl; congruence |].
    split; [intros Hf; discriminate Hf |].
    split; [intros Hf; discriminate Hf | reflexivity].
  - split; [intros [] Hf; simpl; congruence |].
    split; [intros Hf; discriminate Hf |].
    split; [intros Hf; reflexivity | reflexivity].
  - split; [intros [] Hf; simpl; congruence |].
    split; [intros Hf; split; [reflexivity | exists []; split; [reflexivity | exact Hnil]] |].
    split; [intros Hf; discriminate Hf | reflexivity].
  - split; [intros [] Hf; simpl; congruence |].
    split; [intros Hf; split; [reflexivity | exists []; split; [reflexivity | exact Hnil]] |].
    split; [intros Hf; reflexivity | reflexivity].
Qed.

Lemma startup_seeds_missing_files_witness :
  get_applicants (listen (λ _, false) (blank ∅))
    = (Json 200 (JArr []), listen (λ _, false) (blank ∅))
  ∧ registry_ok (listen (λ _, false) (blank ∅)).
Proof.
  destruct (startup_seeds_missing_files (λ _, false) (blank ∅)) as (_ & Happ & _).
  apply Happ. reflexivity.
Defined.
